(** * CV builder: the record schema, its validators and the submit pipeline

  A shallow embedding of [cv_builder.py].  The file follows the source
  top-down: Python values and exceptions, the [CV] model with its three
  field validators, Base64, the template environment, [CVForm.submit],
  and last the session lifecycle that drives the form. *)

From Stdlib Require Import ZArith String Ascii List Lia.
From stdpp Require Import base gmap strings list.

Set Warnings "-register-all".
Open Scope string_scope.

(** ** Python values and exceptions *)

Module Py.

(** The values a form can hold: what JSON can carry.  A [dict] has string
    keys. *)
Inductive value :=
| VNone
| VBool (b : bool)
| VInt (z : Z)
| VStr (s : string)
| VList (l : list value)
| VDict (d : gmap string value).

Abbreviation dict := (gmap string value).

(** An exception object: its class and the text [str(e)] gives.  Every
    exception modelled here is an instance of [Exception]. *)
Record exn := Exn { exn_class : string; exn_str : string }.

Definition ValueError (msg : string) : exn := Exn "ValueError" msg.

(** A computation that returns or raises. *)
Definition result (A : Type) : Type := exn + A.

Definition ret {A} (a : A) : result A := inr a.
Definition raise {A} (e : exn) : result A := inl e.

Definition bind {A B} (m : result A) (k : A -> result B) : result B :=
  match m with
  | inl e => inl e
  | inr a => k a
  end.

(** [try: body except Exception as e: handler e] *)
Definition try_except {A} (body : result A) (handler : exn -> result A)
  : result A :=
  match body with
  | inl e => handler e
  | inr a => inr a
  end.

(** [sep.join(parts)] *)
Definition join (sep : string) (parts : list string) : string :=
  String.concat sep parts.

(** [key in item] for a dict. *)
Definition contains (item : dict) (key : string) : bool :=
  bool_decide (key ∈ dom item).

(** [needle in haystack] for two strings. *)
Definition mentions (needle haystack : string) : bool :=
  match String.index 0 needle haystack with
  | Some _ => true
  | None => false
  end.

End Py.

Import Py.

Notation "x <- m ;; k" := (Py.bind m (fun x => k))
  (at level 100, m at next level, right associativity).

(** ** The field validators of [CV] *)

Section Validators.

(** [required_keys] is a set literal.  Python does not fix the order in
    which a set of strings is iterated, so the order is a parameter: the
    list of the literal's elements goes in, the iteration order comes
    out. *)
Variable set_iter : list string -> list string.

Definition validate_skills (value : list string) : result (list string) :=
  match value with
  | [] => raise (ValueError "Skills list cannot be empty")
  | _ => ret value
  end.

Definition experience_keys : list string :=
  ["job_title"; "company_name"; "start_date"; "end_date"; "description"].

Definition education_keys : list string :=
  ["institution_name"; "degree"; "field_of_study"; "start_date";
   "end_date"; "description"].

(** [all(key in item for key in required_keys)] *)
Definition all_keys_in (required_keys : list string) (item : dict) : bool :=
  forallb (contains item) (set_iter required_keys).

Definition experience_message : string :=
  "Each experience entry must contain the following keys: "
    ++ join ", " (set_iter experience_keys).

Definition education_message : string :=
  "Each education entry must contain the following keys: "
    ++ join ", " (set_iter education_keys).

(** The [for item in value] loop of both list validators: it leaves at
    the first entry that fails the test. *)
Fixpoint for_item (required_keys : list string) (message : string)
    (value : list dict) : result unit :=
  match value with
  | [] => ret tt
  | item :: rest =>
      if all_keys_in required_keys item
      then for_item required_keys message rest
      else raise (ValueError message)
  end.

Definition validate_experience (value : list dict) : result (list dict) :=
  _ <- for_item experience_keys experience_message value ;;
  ret value.

Definition validate_education (value : list dict) : result (list dict) :=
  _ <- for_item education_keys education_message value ;;
  ret value.

End Validators.

(** ** The [CV] model

    [CV] is a pydantic [BaseModel].  Building it from a mapping validates
    the declared fields in declaration order and gathers the errors of all
    of them; a field's validator runs after, and only after, the field's
    value has passed the check of its declared type. *)

Inductive error_type :=
| missing                  (* a required field is absent *)
| string_type              (* the value is not a str *)
| url_type                 (* the value is not a str to parse as a URL *)
| url_parsing              (* the str is not a well-formed URL *)
| url_scheme               (* the URL is neither http nor https *)
| url_too_long             (* the URL has more than 2083 characters *)
| list_type                (* the value is not a list *)
| dict_type                (* a list item is not a dict *)
| value_error (e : exn).   (* a field validator raised *)

(** One entry of a [ValidationError]: the field, the index of the item
    inside it when the error is about one item of a list, and the kind. *)
Record error_details := ErrorDetails {
  loc : string;
  loc_index : option nat;
  err_type : error_type
}.

Definition line_errors : Type := list (option nat * error_type).

Definition validation (A : Type) : Type := list error_details + A.

Definition errors_of {A} (r : validation A) : list error_details :=
  match r with
  | inl es => es
  | inr _ => []
  end.

Definition passed {A} (r : validation A) : bool :=
  match r with
  | inl _ => false
  | inr _ => true
  end.

(** Errors of the fields add up. *)
Definition ap {A B} (f : validation (A -> B)) (x : validation A)
  : validation B :=
  match f, x with
  | inr g, inr a => inr (g a)
  | inr _, inl es => inl es
  | inl es, inr _ => inl es
  | inl es, inl es' => inl (es ++ es')%list
  end.

Notation "f <@> x" := (ap f x) (at level 50, left associativity).

(** [str] *)
Definition str_type (v : value) : line_errors + string :=
  match v with
  | VStr s => inr s
  | _ => inl [(None, string_type)]
  end.

(** [dict], as the item type of a list *)
Definition dict_item (v : value) : option dict :=
  match v with
  | VDict d => Some d
  | _ => None
  end.

(** [str], as the item type of a list *)
Definition str_item (v : value) : option string :=
  match v with
  | VStr s => Some s
  | _ => None
  end.

(** [Optional[T]] *)
Definition optional {A} (inner : value -> line_errors + A) (v : value)
  : line_errors + option A :=
  match v with
  | VNone => inr None
  | _ => match inner v with
         | inl es => inl es
         | inr a => inr (Some a)
         end
  end.

(** The items of a [List[T]], each error carrying the index of its item. *)
Fixpoint list_items {A} (item : value -> option A) (bad : error_type)
    (i : nat) (l : list value) : line_errors + list A :=
  match l with
  | [] => inr []
  | v :: rest =>
      match item v, list_items item bad (S i) rest with
      | Some a, inr r => inr (a :: r)
      | Some _, inl es => inl es
      | None, inr _ => inl [(Some i, bad)]
      | None, inl es => inl ((Some i, bad) :: es)
      end
  end.

(** [List[T]] *)
Definition list_of {A} (item : value -> option A) (bad : error_type)
    (v : value) : line_errors + list A :=
  match v with
  | VList l => list_items item bad 0 l
  | _ => inl [(None, list_type)]
  end.

(** [@field_validator(...)]: the function runs on the typed value and what
    it returns becomes the value of the field; what it raises becomes an
    error of the field. *)
Definition field_validator {A} (ty : value -> line_errors + A)
    (f : A -> result A) (v : value) : line_errors + A :=
  match ty v with
  | inl es => inl es
  | inr a => match f a with
             | inl e => inl [(None, value_error e)]
             | inr a' => inr a'
             end
  end.

Definition at_field (name : string) (es : line_errors)
  : list error_details :=
  map (fun ie => ErrorDetails name (fst ie) (snd ie)) es.

(** The check works on the record the session holds.  A step takes the
    record and hands it on to the next step together with its answer. *)
Definition check (A : Type) : Type := dict -> A * dict.

Definition check_ret {A} (a : A) : check A := fun data => (a, data).

Definition check_bind {A B} (m : check A) (k : A -> check B) : check B :=
  fun data => let (a, data') := m data in k a data'.

Definition get_field (name : string) : check (option value) :=
  fun data => (data !! name, data).

(** [name: T = Field(...)] *)
Definition required {A} (name : string) (ty : value -> line_errors + A)
  : check (validation A) :=
  check_bind (get_field name) (fun o =>
  check_ret (match o with
             | None => inl [ErrorDetails name None missing]
             | Some v => match ty v with
                         | inl es => inl (at_field name es)
                         | inr a => inr a
                         end
             end)).

(** [name: Optional[T] = Field(None, ...)] *)
Definition defaulted {A} (name : string) (ty : value -> line_errors + A)
    (default : A) : check (validation A) :=
  check_bind (get_field name) (fun o =>
  check_ret (match o with
             | None => inr default
             | Some v => match ty v with
                         | inl es => inl (at_field name es)
                         | inr a => inr a
                         end
             end)).

Record CV := {
  full_name : string;
  email : string;
  phone_number : option string;
  linkedIn_profile : option string;
  portfolio_website : option string;
  summary : string;
  skills : list string;
  experience : list dict;
  education : list dict
}.

(** What the parser of [HttpUrl] can hold against a str: it does not parse
    as a URL, its scheme is not http or https, or it is too long. *)
Inductive url_refusal := not_a_url | other_scheme | over_length.

Definition url_error (refusal : url_refusal) : error_type :=
  match refusal with
  | not_a_url => url_parsing
  | other_scheme => url_scheme
  | over_length => url_too_long
  end.

Section Model.

Variable set_iter : list string -> list string.

(** [HttpUrl]: the URL parser of the library takes a str or holds one of
    three things against it. *)
Variable check_http_url : string -> option url_refusal.

Definition http_url (v : value) : line_errors + string :=
  match v with
  | VStr s =>
      match check_http_url s with
      | None => inr s
      | Some refusal => inl [(None, url_error refusal)]
      end
  | _ => inl [(None, url_type)]
  end.

(** Building a [CV] from the keyword arguments [data], run against the
    record that holds them. *)
Definition CV_check : check (validation CV) :=
  check_bind (required "full_name" str_type) (fun r1 =>
  check_bind (required "email" str_type) (fun r2 =>
  check_bind (defaulted "phone_number" (optional str_type) None) (fun r3 =>
  check_bind (defaulted "linkedIn_profile" (optional http_url) None) (fun r4 =>
  check_bind (defaulted "portfolio_website" (optional http_url) None) (fun r5 =>
  check_bind (required "summary" str_type) (fun r6 =>
  check_bind (required "skills"
                (field_validator (list_of str_item string_type)
                   validate_skills)) (fun r7 =>
  check_bind (required "experience"
                (field_validator (list_of dict_item dict_type)
                   (validate_experience set_iter))) (fun r8 =>
  check_bind (required "education"
                (field_validator (list_of dict_item dict_type)
                   (validate_education set_iter))) (fun r9 =>
  check_ret (inr Build_CV <@> r1 <@> r2 <@> r3 <@> r4 <@> r5 <@> r6
               <@> r7 <@> r8 <@> r9)))))))))).

(** The outcome of the check alone. *)
Definition model_validate (data : dict) : validation CV :=
  fst (CV_check data).

End Model.

(** ** Base64

    [base64.b64encode] with the standard alphabet, and the decoder of the
    receiving end.  Three octets make four sextets; the last group is
    padded with [=]. *)

Module Base64.

Abbreviation byte := Byte.byte.

Definition alphabet : string :=
  "ABCDEFGHIJKLMNOPQRSTUVWXYZabcdefghijklmnopqrstuvwxyz0123456789+/".

Definition pad : ascii := "="%char.

Definition to_char (sextet : N) : ascii :=
  match String.get (N.to_nat sextet) alphabet with
  | Some c => c
  | None => pad
  end.

Definition of_char (c : ascii) : option N :=
  match String.index 0 (String c EmptyString) alphabet with
  | Some i => Some (N.of_nat i)
  | None => None
  end.

Definition sextet1 (a : byte) : N :=
  N.shiftr (Byte.to_N a) 2.

Definition sextet2 (a b : byte) : N :=
  N.lor (N.shiftl (N.land (Byte.to_N a) 3) 4) (N.shiftr (Byte.to_N b) 4).

Definition sextet3 (b c : byte) : N :=
  N.lor (N.shiftl (N.land (Byte.to_N b) 15) 2) (N.shiftr (Byte.to_N c) 6).

Definition sextet4 (c : byte) : N :=
  N.land (Byte.to_N c) 63.

Fixpoint b64encode (data : list byte) : string :=
  match data with
  | [] => EmptyString
  | [a] =>
      String (to_char (sextet1 a))
        (String (to_char (sextet2 a Byte.x00))
           (String pad (String pad EmptyString)))
  | [a; b] =>
      String (to_char (sextet1 a))
        (String (to_char (sextet2 a b))
           (String (to_char (sextet3 b Byte.x00))
              (String pad EmptyString)))
  | a :: b :: c :: rest =>
      String (to_char (sextet1 a))
        (String (to_char (sextet2 a b))
           (String (to_char (sextet3 b c))
              (String (to_char (sextet4 c)) (b64encode rest))))
  end.

Definition octet (n : N) : byte :=
  match Byte.of_N (N.land n 255) with
  | Some b => b
  | None => Byte.x00
  end.

Definition octet1 (s1 s2 : N) : byte :=
  octet (N.lor (N.shiftl s1 2) (N.shiftr s2 4)).

Definition octet2 (s2 s3 : N) : byte :=
  octet (N.lor (N.shiftl (N.land s2 15) 4) (N.shiftr s3 2)).

Definition octet3 (s3 s4 : N) : byte :=
  octet (N.lor (N.shiftl (N.land s3 3) 6) s4).

Definition is_empty (s : string) : bool :=
  match s with
  | EmptyString => true
  | String _ _ => false
  end.

Fixpoint b64decode (s : string) : option (list byte) :=
  match s with
  | EmptyString => Some []
  | String c1 (String c2 (String c3 (String c4 rest))) =>
      match of_char c1, of_char c2 with
      | Some s1, Some s2 =>
          if Ascii.eqb c3 pad then
            if Ascii.eqb c4 pad && is_empty rest
            then Some [octet1 s1 s2]
            else None
          else
            match of_char c3 with
            | Some s3 =>
                if Ascii.eqb c4 pad then
                  if is_empty rest
                  then Some [octet1 s1 s2; octet2 s2 s3]
                  else None
                else
                  match of_char c4, b64decode rest with
                  | Some s4, Some tail =>
                      Some (octet1 s1 s2 :: octet2 s2 s3 :: octet3 s3 s4
                              :: tail)
                  | _, _ => None
                  end
            | None => None
            end
      | _, _ => None
      end
  | _ => None
  end.

(** A character that passes through a text channel: a letter of the
    alphabet or the padding sign. *)
Definition transport_safe (c : ascii) : bool :=
  mentions (String c EmptyString) alphabet || Ascii.eqb c pad.

Definition all_chars (p : ascii -> bool) (s : string) : bool :=
  forallb p (list_ascii_of_string s).

End Base64.

(** ** The template environment

    [Environment(loader=FileSystemLoader(...))] sets no [undefined]
    argument, so names the context lacks are handled by the default
    policy.  A template is a sequence of nodes: literal text, the output
    of a name, and any other construct (loops, filters, attribute access),
    which renders as the template's author wrote it and may raise. *)

Module Jinja.

Inductive undefined_type := Undefined | StrictUndefined.

Record Environment := { undefined : undefined_type }.

(** The defaults of the [Environment] constructor. *)
Definition default_environment : Environment :=
  {| undefined := Undefined |}.

Inductive node :=
| TemplateData (text : string)
| Output (name : string)
| Statement (run : dict -> result string).

Abbreviation Template := (list node).

Section Render.

(** [str(v)], the text a value is printed as. *)
Variable to_str : value -> string.

Variable env : Environment.

Definition resolve (context : dict) (name : string) : result string :=
  match context !! name with
  | Some v => ret (to_str v)
  | None =>
      match undefined env with
      | Undefined => ret EmptyString
      | StrictUndefined =>
          raise (Exn "UndefinedError" ("'" ++ name ++ "' is undefined"))
      end
  end.

Definition render_node (context : dict) (n : node) : result string :=
  match n with
  | TemplateData text => ret text
  | Output name => resolve context name
  | Statement run => run context
  end.

Fixpoint render (template : Template) (context : dict) : result string :=
  match template with
  | [] => ret EmptyString
  | n :: rest =>
      piece <- render_node context n ;;
      tail <- render rest context ;;
      ret (piece ++ tail)
  end.

End Render.


End Jinja.

(** ** In-memory byte streams *)

Module IO.

Record BytesIO := { buffer : list Byte.byte; position : nat }.

(** [BytesIO(initial)] and [BytesIO()] *)
Definition new (initial : list Byte.byte) : BytesIO :=
  {| buffer := initial; position := 0 |}.

Definition write (data : list Byte.byte) (s : BytesIO) : BytesIO :=
  {| buffer := (take (position s) (buffer s) ++ data
                  ++ drop (position s + length data) (buffer s))%list;
     position := position s + length data |}.

Definition seek (offset : nat) (s : BytesIO) : BytesIO :=
  {| buffer := buffer s; position := offset |}.

(** [s.read()]: the bytes from the position to the end. *)
Definition read (s : BytesIO) : list Byte.byte * BytesIO :=
  (drop (position s) (buffer s),
   {| buffer := buffer s; position := length (buffer s) |}).

End IO.

(** ** The form *)

Module CVForm.

(** What [pisa.CreatePDF] hands back: the count of errors and of warnings
    met during the conversion. *)
Record pisaContext := { err : nat; warn : nat }.

Definition ask_confirm : bool := true.

Definition template_env : Jinja.Environment := Jinja.default_environment.

Definition template_file : string := "template_001.html".

Section Submit.

Variable to_str : value -> string.

(** [template_env.get_template]: the files of [default_templates], as the
    loader finds and parses them. *)
Variable get_template : string -> result Jinja.Template.

(** The converter of xhtml2pdf: given the source bytes it raises, or it
    returns its context after writing some bytes to the destination. *)
Variable convert : list Byte.byte -> result (pisaContext * list Byte.byte).

Definition log_debug (msg : string) : result unit := ret tt.
Definition log_error (msg : string) : result unit := ret tt.

(** [pisa.CreatePDF(src, dest=dest)] *)
Definition CreatePDF (src dest : IO.BytesIO)
  : result (pisaContext * IO.BytesIO) :=
  out <- convert (fst (IO.read src)) ;;
  ret (fst out, IO.write (snd out) dest).

(** [s.encode('utf-8')]: a str is held as the bytes of its UTF-8 form. *)
Definition encode_utf8 (s : string) : list Byte.byte :=
  list_byte_of_string s.

Definition download_link (encoded_pdf : string) : string :=
  "<a href='data:application/pdf;base64," ++ encoded_pdf
    ++ "' download='cv.pdf'>Download CV</a>".

Definition failure_text (e : exn) : string :=
  "An error occurred while generating your CV: " ++ exn_str e.

Definition submit (form_data : dict) : result dict :=
  try_except
    (_ <- log_debug "Generating CV..." ;;
     template <- get_template template_file ;;
     rendered_cv <- Jinja.render to_str template_env template form_data ;;
     let pdf_stream := IO.new [] in
     status <- CreatePDF (IO.new (encode_utf8 rendered_cv)) pdf_stream ;;
     let pdf_stream := IO.seek 0 (snd status) in
     let encoded_pdf := Base64.b64encode (fst (IO.read pdf_stream)) in
     ret {[ "output" := VStr (download_link encoded_pdf) ]})
    (fun e =>
       _ <- log_error (failure_text e) ;;
       ret {[ "output" := VStr (failure_text e) ]}).

End Submit.

(** The three messages the form words through the language model. *)
Section Messages.

(** [self.cat.llm]: the language model answers a prompt, or the call
    raises. *)
Variable llm : string -> result string.

(** [self._generate_base_message()]: the framework's account of the
    fields collected so far and of those still missing. *)
Variable base_message : string.

(** The line feed an f-string writes for a backslash n. *)
Definition nl : string := String "010"%char EmptyString.

Definition closed_prompt : string :=
  "The customer no longer wants to build their CV. Respond with a short, professional acknowledgment.".

Definition message_closed : result dict :=
  reply <- llm closed_prompt ;;
  ret {[ "output" := VStr reply ]}.

Definition wait_confirm_prompt : string :=
  "Summarize the collected details of the CV briefly and clearly:" ++ nl
    ++ base_message ++ nl
    ++ "Say something like, 'Here’s what we’ve put together for your CV. Do you want to finalize it?'".

Definition message_wait_confirm : result dict :=
  reply <- llm wait_confirm_prompt ;;
  ret {[ "output" := VStr reply ]}.

Definition incomplete_prompt : string :=
  "The CV form is missing some critical details:" ++ nl
    ++ base_message ++ nl
    ++ "Craft a professional nudge to encourage completion. For example, if 'work experience' is missing, say: "
    ++ "'Please provide details of your past work experience to enhance your resume.'".

Definition message_incomplete : result dict :=
  reply <- llm incomplete_prompt ;;
  ret {[ "output" := VStr reply ]}.

End Messages.

End CVForm.

(** ** The session lifecycle

    [CVForm] supplies [submit], [ask_confirm] and the model; the states and
    transitions that call them belong to the form framework, whose code is
    not in [cv_builder.py]. *)

Module Lifecycle.

(** Modelled from the spec: the four states of the lifecycle state machine
    kept by the form framework, which is missing from the source. *)
Inductive state := COLLECTING | AWAITING_CONFIRMATION | SUBMITTED | CANCELLED.

(** Modelled from the spec: the inbound calls of the framework's interface
    ([update], [confirm], [cancel]), missing from the source. *)
Inductive event :=
| update (partial_field_map : dict)
| confirm (yes : bool)
| cancel.

(** Modelled from the spec: the session the framework keeps, missing from
    the source: its state, its record and the reply of the last turn.
    [pipeline_log] lists the records the pipeline was run on, oldest
    first. *)
Record session := {
  current : state;
  record : dict;
  reply : option (result dict);
  pipeline_log : list dict
}.

(** Modelled from the spec: a session of the framework starts in
    [COLLECTING] with an empty record. *)
Definition start : session :=
  {| current := COLLECTING; record := ∅; reply := None; pipeline_log := [] |}.

Section Machine.

Variable set_iter : list string -> list string.
Variable check_http_url : string -> option url_refusal.
Variable to_str : value -> string.
Variable get_template : string -> result Jinja.Template.
Variable convert : list Byte.byte -> result (CVForm.pisaContext * list Byte.byte).

(** Whether the form asks for confirmation; [CVForm.ask_confirm] for this
    form. *)
Variable require_confirmation : bool.

(** [model_class = CV]: the record of the form is complete when it builds
    a [CV] without error. *)
Definition complete (r : dict) : bool :=
  passed (model_validate set_iter check_http_url r).

(** Modelled from the spec: the framework's entry into [SUBMITTED], which
    runs the pipeline of [submit] on the session's record. *)
Definition enter_submitted (s : session) : session :=
  {| current := SUBMITTED;
     record := record s;
     reply := Some (CVForm.submit to_str get_template convert (record s));
     pipeline_log := (pipeline_log s ++ [record s])%list |}.

(** Modelled from the spec: the field update of a [COLLECTING] turn by the
    framework; the new values take the place of the old ones. *)
Definition merge (partial_field_map : dict) (s : session) : session :=
  {| current := COLLECTING;
     record := partial_field_map ∪ record s;
     reply := None;
     pipeline_log := pipeline_log s |}.

(** Modelled from the spec: one call into the framework's state machine.
    A call that is not valid in the current state is rejected and leaves
    the session as it is. *)
Definition step (s : session) (e : event) : session :=
  match current s, e with
  | COLLECTING, update partial_field_map =>
      let s' := merge partial_field_map s in
      if complete (record s') then
        if require_confirmation then
          {| current := AWAITING_CONFIRMATION;
             record := record s';
             reply := None;
             pipeline_log := pipeline_log s' |}
        else enter_submitted s'
      else s'
  | AWAITING_CONFIRMATION, confirm true => enter_submitted s
  | AWAITING_CONFIRMATION, confirm false =>
      {| current := COLLECTING;
         record := record s;
         reply := None;
         pipeline_log := pipeline_log s |}
  | COLLECTING, cancel | AWAITING_CONFIRMATION, cancel =>
      {| current := CANCELLED;
         record := ∅;
         reply := None;
         pipeline_log := pipeline_log s |}
  | _, _ => s
  end.

(** Modelled from the spec: a whole session of the framework, from its
    start through the calls made on it. *)
Definition run (events : list event) : session :=
  fold_left step events start.

End Machine.

End Lifecycle.

(** ** Sample data *)

Module Sample.

Definition source_order (keys : list string) : list string := keys.

Definition any_url (s : string) : option url_refusal := None.

(** Prints the text of a str; the samples print nothing else. *)
Definition text_of (v : value) : string :=
  match v with
  | VStr s => s
  | _ => EmptyString
  end.

Definition job : dict :=
  {[ "job_title" := VStr "Analyst"; "company_name" := VStr "X";
     "start_date" := VStr "2020"; "end_date" := VStr "2021";
     "description" := VStr "..." ]}.

Definition school : dict :=
  {[ "institution_name" := VStr "Y"; "degree" := VStr "BSc";
     "field_of_study" := VStr "Math"; "start_date" := VStr "2016";
     "end_date" := VStr "2020"; "description" := VStr "..." ]}.

Definition ada : dict :=
  {[ "full_name" := VStr "Ada Lovelace"; "email" := VStr "ada@example.com";
     "summary" := VStr "Engineer"; "skills" := VList [VStr "math"];
     "experience" := VList [VDict job];
     "education" := VList [VDict school] ]}.

(** A job entry that lacks its title and nothing else. *)
Definition untitled_job : dict := delete "job_title" job.

(** A template that prints a name the record does not hold. *)
Definition greeting : Jinja.Template :=
  [Jinja.TemplateData "<h1>"; Jinja.Output "nickname";
   Jinja.TemplateData "</h1>"].

Definition one_template (name : string) : result Jinja.Template :=
  if String.eqb name "template_001.html" then ret greeting
  else raise (Exn "TemplateNotFound" name).

(** A converter that meets an error, writes nothing and returns. *)
Definition failed_quietly (src : list Byte.byte)
  : result (CVForm.pisaContext * list Byte.byte) :=
  ret ({| CVForm.err := 1; CVForm.warn := 0 |}, []).

(** A converter that writes the first bytes of a PDF and meets no error. *)
Definition converted (src : list Byte.byte)
  : result (CVForm.pisaContext * list Byte.byte) :=
  ret ({| CVForm.err := 0; CVForm.warn := 0 |},
       list_byte_of_string "%PDF-1.4").

(** A converter that raises. *)
Definition failed_loudly (src : list Byte.byte)
  : result (CVForm.pisaContext * list Byte.byte) :=
  raise (Exn "Exception" "conversion failed").


(** The sample record with a blank name and a blank summary. *)
Definition blank : dict :=
  <["full_name" := VStr ""]> (<["summary" := VStr ""]> ada).

(** The sample record, validated. *)
Definition ada_cv : CV :=
  {| full_name := "Ada Lovelace"; email := "ada@example.com";
     phone_number := None; linkedIn_profile := None;
     portfolio_website := None; summary := "Engineer";
     skills := ["math"]; experience := [job]; education := [school] |}.

(** Another order to iterate a set literal in. *)
Definition reversed (keys : list string) : list string := reverse keys.

End Sample.

(** ** Notions the statements use *)

(** An entry lacks a key of the required set. *)
Definition lacks (required_keys : list string) (item : dict) : Prop :=
  exists key, key ∈ required_keys /\ key ∉ dom item.

(** The required keys an entry does not have, in the order of the
    literal. *)
Definition missing_keys (required_keys : list string) (item : dict)
  : list string :=
  List.filter (fun key => negb (contains item key)) required_keys.

(** Among the required keys, the text of [e] names those of [keys] and no
    other. *)
Definition names_exactly (e : exn) (required_keys keys : list string)
  : Prop :=
  forall key, key ∈ required_keys ->
    (mentions key (exn_str e) = true <-> key ∈ keys).

(** The outcome of one required field of the model. *)
Definition required_result {A} (name : string)
    (ty : value -> line_errors + A) (data : dict) : validation A :=
  fst (required name ty data).

(** The outcome of one field that has a default. *)
Definition defaulted_result {A} (name : string)
    (ty : value -> line_errors + A) (default : A) (data : dict)
  : validation A :=
  fst (defaulted name ty default data).

Definition scalar_fields : list string := ["full_name"; "email"; "summary"].

Definition empty_skills : exn := ValueError "Skills list cannot be empty".

(** The text [submit] puts under ["output"], stage by stage. *)
Definition output_text (to_str : value -> string)
    (get_template : string -> result Jinja.Template)
    (convert : list Byte.byte -> result (CVForm.pisaContext * list Byte.byte))
    (form_data : dict) : string :=
  match get_template CVForm.template_file with
  | inl e => CVForm.failure_text e
  | inr template =>
      match Jinja.render to_str CVForm.template_env template form_data with
      | inl e => CVForm.failure_text e
      | inr rendered_cv =>
          match convert (CVForm.encode_utf8 rendered_cv) with
          | inl e => CVForm.failure_text e
          | inr status =>
              CVForm.download_link (Base64.b64encode (snd status))
          end
      end
  end.




(** What holds of a session in each state of its lifecycle. *)
Definition session_ok (set_iter : list string -> list string)
    (check_http_url : string -> option url_refusal)
    (to_str : value -> string)
    (get_template : string -> result Jinja.Template)
    (convert : list Byte.byte -> result (CVForm.pisaContext * list Byte.byte))
    (s : Lifecycle.session) : Prop :=
  match Lifecycle.current s with
  | Lifecycle.SUBMITTED =>
      Lifecycle.pipeline_log s = [Lifecycle.record s]
      /\ Lifecycle.complete set_iter check_http_url (Lifecycle.record s)
         = true
      /\ Lifecycle.reply s
         = Some (CVForm.submit to_str get_template convert
                   (Lifecycle.record s))
  | Lifecycle.AWAITING_CONFIRMATION =>
      Lifecycle.pipeline_log s = []
      /\ Lifecycle.complete set_iter check_http_url (Lifecycle.record s)
         = true
      /\ Lifecycle.reply s = None
  | Lifecycle.COLLECTING | Lifecycle.CANCELLED =>
      Lifecycle.pipeline_log s = [] /\ Lifecycle.reply s = None
  end.

(** A required scalar field holds a str that is not empty. *)
Definition nonblank (r : dict) (name : string) : bool :=
  match r !! name with
  | Some (VStr s) => negb (Base64.is_empty s)
  | _ => false
  end.

(** Modelled from the spec: the completeness check in the spec's words,
    which the source does not have in this form: all that the model
    checks and, besides, no required scalar field empty. *)
Definition well_formed (set_iter : list string -> list string)
    (check_http_url : string -> option url_refusal) (r : dict) : bool :=
  passed (model_validate set_iter check_http_url r)
  && forallb (nonblank r) ["full_name"; "email"; "summary"].

Definition required_fields : list string :=
  ["full_name"; "email"; "summary"; "skills"; "experience"; "education"].

Definition url_fields : list string :=
  ["linkedIn_profile"; "portfolio_website"].

(** Where an error points: the field and the item. *)
Definition place (e : error_details) : string * option nat :=
  (loc e, loc_index e).

(** Two outcomes agree: both are the same record, or both are errors at
    the same places. *)
Definition same_outcome {A} (r r' : validation A) : Prop :=
  match r, r' with
  | inr a, inr a' => a = a'
  | inl es, inl es' => map place es = map place es'
  | _, _ => False
  end.

(** Several writes to a stream, one after the other. *)
Definition write_all (chunks : list (list Byte.byte)) (s : IO.BytesIO)
  : IO.BytesIO :=
  fold_left (fun s chunk => IO.write chunk s) chunks s.

(** Checks over all octets and all sextets, for the facts of Base64 that
    are settled by running through the cases. *)
Module Cases.

Import Base64.

Definition all_bytes : list byte :=
  map (fun n => octet (N.of_nat n)) (seq 0 256).

Definition for_all_bytes (p : byte -> bool) : bool := forallb p all_bytes.

Definition all_sextets : list N := map N.of_nat (seq 0 64).

(** A sextet reads back as itself, is no padding and is safe to send. *)
Definition reads_back (sextet : N) : bool :=
  match of_char (to_char sextet) with
  | Some n => N.eqb n sextet
  | None => false
  end
  && negb (Ascii.eqb (to_char sextet) pad)
  && transport_safe (to_char sextet).

Definition sextets_ok (a b : byte) : bool :=
  N.ltb (sextet1 a) 64 && N.ltb (sextet2 a b) 64
  && N.ltb (sextet3 a b) 64 && N.ltb (sextet4 a) 64.

Definition octets_ok (a b : byte) : bool :=
  Byte.eqb (octet1 (sextet1 a) (sextet2 a b)) a
  && N.eqb (N.land (sextet2 a b) 15) (N.shiftr (Byte.to_N b) 4)
  && N.eqb (N.shiftr (sextet3 a b) 2) (N.land (Byte.to_N a) 15)
  && N.eqb (N.land (sextet3 a b) 3) (N.shiftr (Byte.to_N b) 6)
  && Byte.eqb (octet (N.lor (N.shiftl (N.shiftr (Byte.to_N a) 4) 4)
                            (N.land (Byte.to_N a) 15))) a
  && Byte.eqb (octet (N.lor (N.shiftl (N.shiftr (Byte.to_N a) 6) 6)
                            (sextet4 a))) a.

End Cases.

(** * Properties *)

(** ** The list validators *)

Section ValidatorFacts.

Variable set_iter : list string -> list string.
Hypothesis set_iter_perm : forall keys, set_iter keys ≡ₚ keys.


Lemma all_keys_in_true required_keys item :
  all_keys_in set_iter required_keys item = true <->
  ~ lacks required_keys item.
Proof.
  unfold all_keys_in, lacks, contains.
  rewrite forallb_forall. split.
  - intros H (key & Hin & Hout). apply Hout.
    rewrite <- (set_iter_perm required_keys) in Hin.
    apply list_elem_of_In, H in Hin. by apply bool_decide_eq_true in Hin.
  - intros H key Hin. apply bool_decide_eq_true.
    destruct (decide (key ∈ dom item)) as [|Hout]; [done|].
    exfalso. apply H. exists key. split; [|done].
    rewrite <- (set_iter_perm required_keys). by apply list_elem_of_In.
Qed.

Lemma for_item_raises required_keys message value :
  Exists (lacks required_keys) value ->
  for_item set_iter required_keys message value = raise (ValueError message).
Proof.
  induction value as [|item rest IH]; intros H.
  - inversion H.
  - simpl. destruct (all_keys_in set_iter required_keys item) eqn:E.
    + apply all_keys_in_true in E.
      apply Exists_cons in H as [H|H]; [done | by apply IH].
    + done.
Qed.

Lemma for_item_returns required_keys message value :
  Forall (fun item => ~ lacks required_keys item) value ->
  for_item set_iter required_keys message value = ret tt.
Proof.
  induction 1 as [|item rest H _ IH]; simpl; [done|].
  apply all_keys_in_true in H. by rewrite H.
Qed.

End ValidatorFacts.






(** C1, as the code has it.  When some entry of an [experience] (or
    [education]) list lacks a required key, the validator raises one
    [ValueError] whose text lists the whole required key set of the field,
    whichever keys are absent and however many entries lack some; when no
    entry lacks a key it returns the list it was given.  The order in which
    the set literal is iterated only has to be a rearrangement of its
    elements. *)
Theorem list_validators_name_required_keys
    (set_iter : list string -> list string)
    (set_iter_perm : forall keys, set_iter keys ≡ₚ keys)
    (value : list dict) :
  (Exists (lacks experience_keys) value ->
     validate_experience set_iter value
     = raise (ValueError (experience_message set_iter)))
  /\ (Forall (fun item => ~ lacks experience_keys item) value ->
        validate_experience set_iter value = ret value)
  /\ (Exists (lacks education_keys) value ->
        validate_education set_iter value
        = raise (ValueError (education_message set_iter)))
  /\ (Forall (fun item => ~ lacks education_keys item) value ->
        validate_education set_iter value = ret value).
Proof.
  unfold validate_experience, validate_education.
  repeat split; intros H.
  - by rewrite for_item_raises.
  - by rewrite for_item_returns.
  - by rewrite for_item_raises.
  - by rewrite for_item_returns.
Qed.

(** C1, witness: a single job entry without its [job_title], with the keys
    iterated in the order of the literal. *)
Lemma list_validators_name_required_keys_witness :
  validate_experience Sample.source_order [Sample.untitled_job]
  = raise (ValueError (experience_message Sample.source_order)).
Proof.
  apply (proj1 (list_validators_name_required_keys Sample.source_order
                  (fun keys => reflexivity keys) [Sample.untitled_job])).
  apply Exists_cons_hd. exists "job_title". split.
  - apply list_elem_of_In. simpl. tauto.
  - apply not_elem_of_dom. reflexivity.
Defined.

(** C1, counterexample: for a job entry that lacks only [job_title] the
    error text names [company_name], which the entry has, so the error does
    not name exactly the missing keys; and a list with two such entries and
    an empty one between them raises that very same error, with nothing
    said per entry. *)
Lemma untitled_job_error_names_present_keys :
  exists e,
    validate_experience Sample.source_order [Sample.untitled_job] = raise e
    /\ missing_keys experience_keys Sample.untitled_job = ["job_title"]
    /\ ~ names_exactly e experience_keys
           (missing_keys experience_keys Sample.untitled_job)
    /\ validate_experience Sample.source_order
         [Sample.untitled_job; ∅; Sample.untitled_job] = raise e.
Proof.
  eexists. split; [vm_compute; reflexivity|].
  split; [vm_compute; reflexivity|].
  split; [|vm_compute; reflexivity].
  intros H. specialize (H "company_name").
  assert (Hin : "company_name" ∈ experience_keys)
    by (apply list_elem_of_In; simpl; tauto).
  apply H in Hin. destruct Hin as [Hin _].
  assert (Hm : "company_name" ∈ ["job_title"]) by (apply Hin; vm_compute; reflexivity).
  apply list_elem_of_In in Hm. simpl in Hm. destruct Hm as [Hm|[]]. discriminate Hm.
Qed.

(** ** The model *)

Lemma errors_of_ap {A B} (f : validation (A -> B)) (x : validation A) :
  errors_of (f <@> x) = (errors_of f ++ errors_of x)%list.
Proof. destruct f, x; simpl; by rewrite ?app_nil_r. Qed.

Lemma passed_ap {A B} (f : validation (A -> B)) (x : validation A) :
  passed (f <@> x) = passed f && passed x.
Proof. by destruct f, x. Qed.

Lemma at_field_loc name es e : e ∈ at_field name es -> loc e = name.
Proof.
  unfold at_field. intros H. apply list_elem_of_fmap in H as (ie & -> & _).
  done.
Qed.

Lemma required_result_loc {A} name (ty : value -> line_errors + A) data e :
  e ∈ errors_of (required_result name ty data) -> loc e = name.
Proof.
  unfold required_result, required, check_bind, check_ret, get_field. simpl.
  destruct (data !! name) as [v|]; simpl.
  - destruct (ty v); simpl; [apply at_field_loc | by intros ?%elem_of_nil].
  - by intros ->%list_elem_of_singleton.
Qed.

Lemma defaulted_result_loc {A} name (ty : value -> line_errors + A) d data e :
  e ∈ errors_of (defaulted_result name ty d data) -> loc e = name.
Proof.
  unfold defaulted_result, defaulted, check_bind, check_ret, get_field. simpl.
  destruct (data !! name) as [v|]; simpl.
  - destruct (ty v); simpl; [apply at_field_loc | by intros ?%elem_of_nil].
  - by intros ?%elem_of_nil.
Qed.

Section ModelFacts.

Variable set_iter : list string -> list string.
Variable check_http_url : string -> option url_refusal.

Abbreviation validate := (model_validate set_iter check_http_url).

Lemma model_validate_fields data :
  validate data
  = inr Build_CV
      <@> required_result "full_name" str_type data
      <@> required_result "email" str_type data
      <@> defaulted_result "phone_number" (optional str_type) None data
      <@> defaulted_result "linkedIn_profile"
            (optional (http_url check_http_url)) None data
      <@> defaulted_result "portfolio_website"
            (optional (http_url check_http_url)) None data
      <@> required_result "summary" str_type data
      <@> required_result "skills"
            (field_validator (list_of str_item string_type) validate_skills)
            data
      <@> required_result "experience"
            (field_validator (list_of dict_item dict_type)
               (validate_experience set_iter)) data
      <@> required_result "education"
            (field_validator (list_of dict_item dict_type)
               (validate_education set_iter)) data.
Proof. reflexivity. Qed.

(** The record is handed on as it came. *)
Lemma CV_check_record data :
  snd (CV_check set_iter check_http_url data) = data.
Proof. reflexivity. Qed.

Lemma model_errors data e :
  e ∈ errors_of (validate data) <->
  e ∈ errors_of (required_result "full_name" str_type data)
  \/ e ∈ errors_of (required_result "email" str_type data)
  \/ e ∈ errors_of (defaulted_result "phone_number" (optional str_type)
                      None data)
  \/ e ∈ errors_of (defaulted_result "linkedIn_profile"
                      (optional (http_url check_http_url)) None data)
  \/ e ∈ errors_of (defaulted_result "portfolio_website"
                      (optional (http_url check_http_url)) None data)
  \/ e ∈ errors_of (required_result "summary" str_type data)
  \/ e ∈ errors_of (required_result "skills"
                      (field_validator (list_of str_item string_type)
                         validate_skills) data)
  \/ e ∈ errors_of (required_result "experience"
                      (field_validator (list_of dict_item dict_type)
                         (validate_experience set_iter)) data)
  \/ e ∈ errors_of (required_result "education"
                      (field_validator (list_of dict_item dict_type)
                         (validate_education set_iter)) data).
Proof.
  rewrite model_validate_fields, !errors_of_ap, !elem_of_app. simpl.
  rewrite elem_of_nil. tauto.
Qed.

(** The errors of a field are found among the errors of the model under
    the field's own name, and nowhere else. *)
Lemma model_errors_at data e :
  e ∈ errors_of (validate data) ->
  (loc e = "full_name"
     /\ e ∈ errors_of (required_result "full_name" str_type data))
  \/ (loc e = "email"
     /\ e ∈ errors_of (required_result "email" str_type data))
  \/ (loc e = "phone_number"
     /\ e ∈ errors_of (defaulted_result "phone_number" (optional str_type)
                      None data))
  \/ (loc e = "linkedIn_profile"
     /\ e ∈ errors_of (defaulted_result "linkedIn_profile"
                      (optional (http_url check_http_url)) None data))
  \/ (loc e = "portfolio_website"
     /\ e ∈ errors_of (defaulted_result "portfolio_website"
                      (optional (http_url check_http_url)) None data))
  \/ (loc e = "summary"
     /\ e ∈ errors_of (required_result "summary" str_type data))
  \/ (loc e = "skills"
     /\ e ∈ errors_of (required_result "skills"
                      (field_validator (list_of str_item string_type)
                         validate_skills) data))
  \/ (loc e = "experience"
     /\ e ∈ errors_of (required_result "experience"
                      (field_validator (list_of dict_item dict_type)
                         (validate_experience set_iter)) data))
  \/ (loc e = "education"
     /\ e ∈ errors_of (required_result "education"
                      (field_validator (list_of dict_item dict_type)
                         (validate_education set_iter)) data)).
Proof.
  rewrite model_errors.
  intros [H|[H|[H|[H|[H|[H|[H|[H|H]]]]]]]];
    first [ pose proof (required_result_loc _ _ _ _ H)
          | pose proof (defaulted_result_loc _ _ _ _ _ H) ]; tauto.
Qed.

Lemma required_result_absent {A} name (ty : value -> line_errors + A) data :
  data !! name = None ->
  required_result name ty data = inl [ErrorDetails name None missing].
Proof.
  intros H. unfold required_result, required, check_bind, check_ret, get_field.
  simpl. by rewrite H.
Qed.

Lemma required_result_present {A} name (ty : value -> line_errors + A)
    data v :
  data !! name = Some v ->
  required_result name ty data
  = match ty v with
    | inl es => inl (at_field name es)
    | inr a => inr a
    end.
Proof.
  intros H. unfold required_result, required, check_bind, check_ret, get_field.
  simpl. by rewrite H.
Qed.

Lemma str_result_missing name data :
  ErrorDetails name None missing
    ∈ errors_of (required_result name str_type data)
  <-> data !! name = None.
Proof.
  destruct (data !! name) as [v|] eqn:E.
  - rewrite (required_result_present _ _ _ _ E).
    split; [|done]. destruct v; simpl; intros H;
      try (apply list_elem_of_singleton in H; discriminate H);
      by apply elem_of_nil in H.
  - rewrite (required_result_absent _ _ _ E). simpl.
    rewrite list_elem_of_singleton. done.
Qed.

Lemma str_result_accepts name data s :
  data !! name = Some (VStr s) ->
  required_result name str_type data = inr s.
Proof. intros H. by rewrite (required_result_present _ _ _ _ H). Qed.

End ModelFacts.

(** Finds the field an error of the model belongs to. *)
Ltac own_field H :=
  apply model_errors_at in H; simpl in H;
  repeat (destruct H as [[Hloc H]|H]; [try discriminate Hloc|]);
  try (destruct H as [Hloc H]; try discriminate Hloc).

Section ModelTheorems.

Variable set_iter : list string -> list string.
Variable check_http_url : string -> option url_refusal.

Abbreviation validate' := (model_validate set_iter check_http_url).

Lemma passed_fields data :
  passed (validate' data) = true ->
  passed (required_result "full_name" str_type data) = true
  /\ passed (required_result "email" str_type data) = true
  /\ passed (required_result "summary" str_type data) = true
  /\ passed (required_result "skills"
               (field_validator (list_of str_item string_type)
                  validate_skills) data) = true
  /\ passed (required_result "experience"
               (field_validator (list_of dict_item dict_type)
                  (validate_experience set_iter)) data) = true
  /\ passed (required_result "education"
               (field_validator (list_of dict_item dict_type)
                  (validate_education set_iter)) data) = true.
Proof.
  rewrite model_validate_fields, !passed_ap, !andb_true_iff. tauto.
Qed.

Lemma scalar_missing_iff data name :
  name ∈ scalar_fields ->
  ErrorDetails name None missing ∈ errors_of (validate' data)
  <-> data !! name = None.
Proof.
  intros Hname. rewrite <- str_result_missing.
  apply list_elem_of_In in Hname. simpl in Hname.
  destruct Hname as [<-|[<-|[<-|[]]]]; (split; [intros H; own_field H; done|]);
    rewrite model_errors; tauto.
Qed.

Lemma scalar_str_accepted data name s e :
  name ∈ scalar_fields ->
  data !! name = Some (VStr s) ->
  e ∈ errors_of (validate' data) -> loc e ≠ name.
Proof.
  intros Hname Hs He Hn.
  apply list_elem_of_In in Hname. simpl in Hname.
  destruct Hname as [<-|[<-|[<-|[]]]]; own_field He;
    rewrite Hn in Hloc; try discriminate Hloc;
    rewrite (str_result_accepts _ _ _ Hs) in He; by apply elem_of_nil in He.
Qed.

Lemma scalar_absent_fails data name :
  name ∈ scalar_fields ->
  data !! name = None -> passed (validate' data) = false.
Proof.
  intros Hname Habs. apply not_true_is_false. intros Hp.
  apply passed_fields in Hp as (H1 & H2 & H3 & _).
  apply list_elem_of_In in Hname. simpl in Hname.
  destruct Hname as [<-|[<-|[<-|[]]]];
    rewrite (required_result_absent _ _ _ Habs) in *; discriminate.
Qed.

End ModelTheorems.

(** ** Lists of items *)

Lemma list_items_length {A} (item : value -> option A) bad i l r :
  list_items item bad i l = inr r -> length r = length l.
Proof.
  revert i r. induction l as [|v rest IH]; intros i r; simpl.
  - by intros [= <-].
  - destruct (item v), (list_items item bad (S i) rest) eqn:E;
      intros [= <-]. simpl. f_equal. by eapply IH.
Qed.

Lemma list_items_errors {A} (item : value -> option A) bad i l es ie :
  list_items item bad i l = inl es -> ie ∈ es -> snd ie = bad.
Proof.
  revert i es. induction l as [|v rest IH]; intros i es; simpl; [done|].
  destruct (item v), (list_items item bad (S i) rest) eqn:E;
    intros [= <-] Hin.
  - by eapply IH.
  - apply elem_of_cons in Hin as [->|Hin]; [done | by eapply IH].
  - by apply list_elem_of_singleton in Hin as ->.
Qed.

Lemma list_items_dicts i l r :
  list_items dict_item dict_type i l = inr r -> l = map VDict r.
Proof.
  revert i r. induction l as [|v rest IH]; intros i r; simpl.
  - by intros [= <-].
  - destruct v; simpl; destruct (list_items dict_item dict_type (S i) rest)
      eqn:E; intros [= <-]. simpl. f_equal. by eapply IH.
Qed.

Lemma list_items_strs i l r :
  list_items str_item string_type i l = inr r -> l = map VStr r.
Proof.
  revert i r. induction l as [|v rest IH]; intros i r; simpl.
  - by intros [= <-].
  - destruct v; simpl; destruct (list_items str_item string_type (S i) rest)
      eqn:E; intros [= <-]. simpl. f_equal. by eapply IH.
Qed.


(** What the [skills] field reports for each value it can be given. *)
Lemma skills_value_error v es i e :
  field_validator (list_of str_item string_type) validate_skills v = inl es ->
  (i, value_error e) ∈ es ->
  v = VList [] /\ i = None /\ e = empty_skills.
Proof.
  unfold field_validator, list_of.
  destruct v; try (intros [= <-] H; apply list_elem_of_singleton in H;
                   discriminate H).
  destruct (list_items str_item string_type 0 l) as [es'|strs] eqn:E.
  - intros [= <-] H. eapply list_items_errors in H; [|exact E]. discriminate H.
  - destruct strs as [|s strs]; simpl; [|discriminate].
    intros [= <-] H. apply list_elem_of_singleton in H. injection H as -> ->.
    apply list_items_length in E. destruct l; [done | discriminate E].
Qed.

Lemma skills_empty_rejected :
  field_validator (list_of str_item string_type) validate_skills (VList [])
  = inl [(None, value_error empty_skills)].
Proof. reflexivity. Qed.

Section SkillsTheorem.

Variable set_iter : list string -> list string.
Variable check_http_url : string -> option url_refusal.

(** C7.  The model reports the error of [validate_skills] ("Skills list
    cannot be empty") at [skills] exactly when the record holds [skills]
    and it is the empty list, and then the check fails; a non-empty list
    never brings this error. *)
Theorem empty_skills_reported (data : dict) :
  (forall i e,
     ErrorDetails "skills" i (value_error e)
       ∈ errors_of (model_validate set_iter check_http_url data)
     <-> data !! "skills" = Some (VList []) /\ i = None /\ e = empty_skills)
  /\ (data !! "skills" = Some (VList []) ->
      passed (model_validate set_iter check_http_url data) = false).
Proof.
  split.
  - intros i e. split.
    + intros H. own_field H.
      destruct (data !! "skills") as [v|] eqn:E.
      * rewrite (required_result_present _ _ _ _ E) in H.
        destruct (field_validator _ _ v) as [es|strs] eqn:Ev; simpl in H.
        -- apply list_elem_of_fmap in H as ([i' t] & [= -> <-] & Hin).
           destruct (skills_value_error _ _ _ _ Ev Hin) as (-> & -> & ->).
           done.
        -- by apply elem_of_nil in H.
      * rewrite (required_result_absent _ _ _ E) in H.
        apply list_elem_of_singleton in H. discriminate H.
    + intros (E & -> & ->). apply model_errors.
      do 6 right. left.
      rewrite (required_result_present _ _ _ _ E), skills_empty_rejected.
      simpl. by apply list_elem_of_singleton.
  - intros E. apply not_true_is_false. intros Hp.
    apply passed_fields in Hp as (_ & _ & _ & Hp & _).
    rewrite (required_result_present _ _ _ _ E), skills_empty_rejected in Hp.
    discriminate Hp.
Qed.

End SkillsTheorem.

(** C2, as the code has it.  For each of [full_name], [email] and
    [summary], the model reports [missing] at the field exactly when the
    record has no value for it, and then the check fails; a str value, the
    empty string included, brings no error at the field. *)
Theorem absent_scalar_fields_reported
    (set_iter : list string -> list string)
    (check_http_url : string -> option url_refusal)
    (data : dict) (name : string) :
  name ∈ scalar_fields ->
  (ErrorDetails name None missing
     ∈ errors_of (model_validate set_iter check_http_url data)
   <-> data !! name = None)
  /\ (data !! name = None ->
      passed (model_validate set_iter check_http_url data) = false)
  /\ (forall s e,
        data !! name = Some (VStr s) ->
        e ∈ errors_of (model_validate set_iter check_http_url data) ->
        loc e ≠ name).
Proof.
  intros Hname. split; [|split].
  - by apply scalar_missing_iff.
  - by apply scalar_absent_fails.
  - intros s e. by apply scalar_str_accepted.
Qed.

(** C2, witness: the sample record without its [email]. *)
Lemma absent_scalar_fields_reported_witness :
  "email" ∈ scalar_fields
  /\ ErrorDetails "email" None missing
       ∈ errors_of (model_validate Sample.source_order Sample.any_url
                      (delete "email" Sample.ada))
  /\ passed (model_validate Sample.source_order Sample.any_url
               (delete "email" Sample.ada)) = false.
Proof.
  assert (Hin : "email" ∈ scalar_fields)
    by (apply list_elem_of_In; simpl; tauto).
  pose proof (absent_scalar_fields_reported Sample.source_order
                Sample.any_url (delete "email" Sample.ada) "email" Hin)
    as (Hiff & Hfail & _).
  split; [exact Hin|]. split.
  - apply Hiff. reflexivity.
  - apply Hfail. reflexivity.
Defined.

(** C2, counterexample: the sample record with the empty string for both
    [full_name] and [summary] passes the check. *)
Lemma empty_name_and_summary_pass :
  model_validate Sample.source_order Sample.any_url
    (<["full_name" := VStr ""]> (<["summary" := VStr ""]> Sample.ada))
  = inr {| full_name := ""; email := "ada@example.com";
           phone_number := None; linkedIn_profile := None;
           portfolio_website := None; summary := "";
           skills := ["math"]; experience := [Sample.job];
           education := [Sample.school] |}.
Proof. vm_compute. reflexivity. Qed.

(** ** The email field *)

Lemma required_result_insert_ne {A} name (ty : value -> line_errors + A)
    key v data :
  key ≠ name ->
  required_result name ty (<[key := v]> data) = required_result name ty data.
Proof.
  intros Hne.
  unfold required_result, required, check_bind, check_ret, get_field. simpl.
  by rewrite lookup_insert_ne.
Qed.

Lemma defaulted_result_insert_ne {A} name (ty : value -> line_errors + A)
    d key v data :
  key ≠ name ->
  defaulted_result name ty d (<[key := v]> data)
  = defaulted_result name ty d data.
Proof.
  intros Hne.
  unfold defaulted_result, defaulted, check_bind, check_ret, get_field. simpl.
  by rewrite lookup_insert_ne.
Qed.

Lemma ap_inr {A B} (f : validation (A -> B)) (x : validation A) b :
  f <@> x = inr b -> exists g a, f = inr g /\ x = inr a /\ b = g a.
Proof. destruct f, x; try discriminate. intros [= <-]. eauto. Qed.

Lemma model_validate_inr set_iter check_http_url data cv :
  model_validate set_iter check_http_url data = inr cv ->
  required_result "full_name" str_type data = inr (full_name cv)
  /\ required_result "email" str_type data = inr (email cv)
  /\ defaulted_result "phone_number" (optional str_type) None data
     = inr (phone_number cv)
  /\ defaulted_result "linkedIn_profile" (optional (http_url check_http_url))
       None data = inr (linkedIn_profile cv)
  /\ defaulted_result "portfolio_website" (optional (http_url check_http_url))
       None data = inr (portfolio_website cv)
  /\ required_result "summary" str_type data = inr (summary cv)
  /\ required_result "skills"
       (field_validator (list_of str_item string_type) validate_skills) data
     = inr (skills cv)
  /\ required_result "experience"
       (field_validator (list_of dict_item dict_type)
          (validate_experience set_iter)) data
     = inr (experience cv)
  /\ required_result "education"
       (field_validator (list_of dict_item dict_type)
          (validate_education set_iter)) data
     = inr (education cv).
Proof.
  rewrite model_validate_fields. intros H.
  repeat (apply ap_inr in H as (? & ? & H & ? & ?)).
  simplify_eq. simpl. repeat split; assumption.
Qed.

(** C9.  Whatever str the record holds for [email], the model reports no
    error at [email], the check passes or fails as it does for any other
    str in its place, and the validated record holds that very str. *)
Theorem email_takes_any_string
    (set_iter : list string -> list string)
    (check_http_url : string -> option url_refusal)
    (data : dict) (s : string) :
  (forall e,
     e ∈ errors_of (model_validate set_iter check_http_url
                      (<["email" := VStr s]> data)) ->
     loc e ≠ "email")
  /\ (forall s',
        passed (model_validate set_iter check_http_url
                  (<["email" := VStr s']> data))
        = passed (model_validate set_iter check_http_url
                    (<["email" := VStr s]> data)))
  /\ (forall cv,
        model_validate set_iter check_http_url (<["email" := VStr s]> data)
        = inr cv ->
        email cv = s).
Proof.
  assert (Hs : forall t, (<["email" := VStr t]> data) !! "email"
                         = Some (VStr t)) by (intros t; apply lookup_insert_eq).
  split; [|split].
  - intros e. apply scalar_str_accepted with (s := s); [|apply Hs].
    apply list_elem_of_In. simpl. tauto.
  - intros s'. rewrite !model_validate_fields, !passed_ap.
    rewrite (str_result_accepts _ _ _ (Hs s)),
      (str_result_accepts _ _ _ (Hs s')).
    by rewrite !required_result_insert_ne, !defaulted_result_insert_ne.
  - intros cv.
    intros (_ & H & _)%model_validate_inr.
    rewrite (str_result_accepts _ _ _ (Hs s)) in H. by injection H.
Qed.

(** ** Running the check again *)

Lemma validate_skills_returns value value' :
  validate_skills value = ret value' -> value' = value.
Proof. destruct value; [discriminate | by intros [= <-]]. Qed.

Lemma validate_experience_returns set_iter value value' :
  validate_experience set_iter value = ret value' -> value' = value.
Proof.
  unfold validate_experience.
  destruct (for_item _ _ _ _); [discriminate | by intros [= <-]].
Qed.

Lemma validate_education_returns set_iter value value' :
  validate_education set_iter value = ret value' -> value' = value.
Proof.
  unfold validate_education.
  destruct (for_item _ _ _ _); [discriminate | by intros [= <-]].
Qed.

Lemma required_result_inr {A} name (ty : value -> line_errors + A) data a :
  required_result name ty data = inr a ->
  exists v, data !! name = Some v /\ ty v = inr a.
Proof.
  destruct (data !! name) as [v|] eqn:E.
  - rewrite (required_result_present _ _ _ _ E).
    destruct (ty v) eqn:Ev; [discriminate|]. intros [= <-]. eauto.
  - by rewrite (required_result_absent _ _ _ E).
Qed.

Lemma dict_list_kept (f : list dict -> result (list dict)) v r :
  (forall x y, f x = ret y -> y = x) ->
  field_validator (list_of dict_item dict_type) f v = inr r ->
  v = VList (map VDict r).
Proof.
  intros Hf. unfold field_validator, list_of.
  destruct v; try discriminate.
  destruct (list_items dict_item dict_type 0 l) as [|ds] eqn:E;
    [discriminate|].
  destruct (f ds) as [|ds'] eqn:Ef; [discriminate|]. intros [= <-].
  apply Hf in Ef as ->. f_equal. by eapply list_items_dicts.
Qed.

Lemma str_list_kept v r :
  field_validator (list_of str_item string_type) validate_skills v = inr r ->
  v = VList (map VStr r).
Proof.
  unfold field_validator, list_of.
  destruct v; try discriminate.
  destruct (list_items str_item string_type 0 l) as [|ss] eqn:E;
    [discriminate|].
  destruct (validate_skills ss) as [|ss'] eqn:Ef; [discriminate|].
  intros [= <-].
  apply validate_skills_returns in Ef as ->. f_equal.
  by eapply list_items_strs.
Qed.

(** C8.  The check leaves the record as it found it, so a second run on
    the record the first run left behind gives the same outcome and the
    same errors; and the lists a validated record holds are the lists the
    record gave, returned by the validators as they were. *)
Theorem check_twice_identical
    (set_iter : list string -> list string)
    (check_http_url : string -> option url_refusal)
    (data : dict) :
  let first := CV_check set_iter check_http_url data in
  let second := CV_check set_iter check_http_url (snd first) in
  snd first = data
  /\ snd second = data
  /\ fst second = fst first
  /\ (forall cv,
        fst first = inr cv ->
        data !! "skills" = Some (VList (map VStr (skills cv)))
        /\ data !! "experience" = Some (VList (map VDict (experience cv)))
        /\ data !! "education" = Some (VList (map VDict (education cv)))).
Proof.
  cbv zeta. rewrite !CV_check_record.
  split; [reflexivity|]. split; [reflexivity|]. split; [reflexivity|].
  intros cv H. split; [|split].
  - apply model_validate_inr in H as (_ & _ & _ & _ & _ & _ & H & _).
    apply required_result_inr in H as (v & -> & H).
    by apply str_list_kept in H as ->.
  - apply model_validate_inr in H as (_ & _ & _ & _ & _ & _ & _ & H & _).
    apply required_result_inr in H as (v & -> & H).
    apply dict_list_kept in H as ->; [done|].
    apply validate_experience_returns.
  - apply model_validate_inr in H as (_ & _ & _ & _ & _ & _ & _ & _ & H).
    apply required_result_inr in H as (v & -> & H).
    apply dict_list_kept in H as ->; [done|].
    apply validate_education_returns.
Qed.

(** ** Base64 *)

Module Base64Facts.

Import Base64 Cases.



Lemma octet_to_N (b : byte) : octet (Byte.to_N b) = b.
Proof. destruct b; reflexivity. Qed.

Lemma for_all_bytes_spec (p : byte -> bool) :
  for_all_bytes p = true -> forall b, p b = true.
Proof.
  unfold for_all_bytes. rewrite forallb_forall. intros H b. apply H.
  rewrite <- (octet_to_N b). unfold all_bytes.
  rewrite <- (N2Nat.id (Byte.to_N b)).
  apply (in_map (fun n => octet (N.of_nat n))). apply in_seq.
  pose proof (Byte.to_N_bounded b). lia.
Qed.

Lemma for_byte_pairs (p : byte -> byte -> bool) :
  for_all_bytes (fun a => for_all_bytes (p a)) = true ->
  forall a b, p a b = true.
Proof.
  intros H a b.
  apply (for_all_bytes_spec (p a)), (for_all_bytes_spec _ H).
Qed.


Lemma reads_back_spec sextet :
  reads_back sextet = true ->
  of_char (to_char sextet) = Some sextet
  /\ Ascii.eqb (to_char sextet) pad = false
  /\ transport_safe (to_char sextet) = true.
Proof.
  unfold reads_back. rewrite !andb_true_iff, negb_true_iff.
  destruct (of_char (to_char sextet)) as [n|]; [|intros [[? _] _]; done].
  intros [[->%N.eqb_eq ?] ?]. done.
Qed.




Lemma sextet_reads_back sextet :
  (sextet < 64)%N -> reads_back sextet = true.
Proof.
  intros H.
  assert (Hall : forallb reads_back all_sextets = true)
    by (vm_compute; reflexivity).
  rewrite forallb_forall in Hall. apply Hall. unfold all_sextets.
  rewrite <- (N2Nat.id sextet). apply in_map, in_seq. lia.
Qed.

Lemma sextets_read_back a b :
  reads_back (sextet1 a) = true /\ reads_back (sextet2 a b) = true
  /\ reads_back (sextet3 a b) = true /\ reads_back (sextet4 a) = true.
Proof.
  assert (H : sextets_ok a b = true)
    by (apply for_byte_pairs; vm_compute; reflexivity).
  unfold sextets_ok in H. rewrite !andb_true_iff, !N.ltb_lt in H.
  destruct H as [[[H1 H2] H3] H4].
  repeat split; by apply sextet_reads_back.
Qed.

Lemma octets_of_sextets a b :
  octet1 (sextet1 a) (sextet2 a b) = a
  /\ N.land (sextet2 a b) 15 = N.shiftr (Byte.to_N b) 4
  /\ N.shiftr (sextet3 a b) 2 = N.land (Byte.to_N a) 15
  /\ N.land (sextet3 a b) 3 = N.shiftr (Byte.to_N b) 6
  /\ octet (N.lor (N.shiftl (N.shiftr (Byte.to_N a) 4) 4)
                  (N.land (Byte.to_N a) 15)) = a
  /\ octet (N.lor (N.shiftl (N.shiftr (Byte.to_N a) 6) 6) (sextet4 a)) = a.
Proof.
  assert (H : octets_ok a b = true)
    by (apply for_byte_pairs; vm_compute; reflexivity).
  unfold octets_ok in H. rewrite !andb_true_iff, !N.eqb_eq in H.
  destruct H as [[[[[H1 H2] H3] H4] H5] H6].
  apply Byte.byte_dec_bl in H1, H5, H6. tauto.
Qed.

Lemma octet2_of_sextets a b c :
  octet2 (sextet2 a b) (sextet3 b c) = b.
Proof.
  unfold octet2.
  destruct (octets_of_sextets a b) as (_ & -> & _).
  destruct (octets_of_sextets b c) as (_ & _ & -> & _ & -> & _). done.
Qed.

Lemma octet3_of_sextets b c :
  octet3 (sextet3 b c) (sextet4 c) = c.
Proof.
  unfold octet3.
  destruct (octets_of_sextets b c) as (_ & _ & _ & -> & _).
  by destruct (octets_of_sextets c c) as (_ & _ & _ & _ & _ & ->).
Qed.

Lemma b64decode_group c1 c2 c3 c4 rest s1 s2 s3 s4 :
  of_char c1 = Some s1 -> of_char c2 = Some s2 ->
  of_char c3 = Some s3 -> of_char c4 = Some s4 ->
  Ascii.eqb c3 pad = false -> Ascii.eqb c4 pad = false ->
  b64decode (String c1 (String c2 (String c3 (String c4 rest))))
  = match b64decode rest with
    | Some tail =>
        Some (octet1 s1 s2 :: octet2 s2 s3 :: octet3 s3 s4 :: tail)
    | None => None
    end.
Proof. intros H1 H2 H3 H4 H5 H6. simpl. by rewrite H1, H2, H3, H4, H5, H6. Qed.

Lemma b64decode_two c1 c2 c3 s1 s2 s3 :
  of_char c1 = Some s1 -> of_char c2 = Some s2 -> of_char c3 = Some s3 ->
  Ascii.eqb c3 pad = false ->
  b64decode (String c1 (String c2 (String c3 (String pad EmptyString))))
  = Some [octet1 s1 s2; octet2 s2 s3].
Proof. intros H1 H2 H3 H5. simpl. by rewrite H1, H2, H3, H5. Qed.

Lemma b64decode_one c1 c2 s1 s2 :
  of_char c1 = Some s1 -> of_char c2 = Some s2 ->
  b64decode (String c1 (String c2 (String pad (String pad EmptyString))))
  = Some [octet1 s1 s2].
Proof. intros H1 H2. simpl. by rewrite H1, H2. Qed.

Lemma of_to_char1 a : of_char (to_char (sextet1 a)) = Some (sextet1 a).
Proof.
  destruct (sextets_read_back a a) as (H & _).
  by apply reads_back_spec in H as (H & _).
Qed.

Lemma of_to_char2 a b :
  of_char (to_char (sextet2 a b)) = Some (sextet2 a b).
Proof.
  destruct (sextets_read_back a b) as (_ & H & _).
  by apply reads_back_spec in H as (H & _).
Qed.

Lemma of_to_char3 a b :
  of_char (to_char (sextet3 a b)) = Some (sextet3 a b)
  /\ Ascii.eqb (to_char (sextet3 a b)) pad = false.
Proof.
  destruct (sextets_read_back a b) as (_ & _ & H & _).
  by apply reads_back_spec in H as (H & H' & _).
Qed.

Lemma of_to_char4 a :
  of_char (to_char (sextet4 a)) = Some (sextet4 a)
  /\ Ascii.eqb (to_char (sextet4 a)) pad = false.
Proof.
  destruct (sextets_read_back a a) as (_ & _ & _ & H).
  by apply reads_back_spec in H as (H & H' & _).
Qed.

Lemma b64encode_group a b c rest :
  b64encode (a :: b :: c :: rest)
  = String (to_char (sextet1 a))
      (String (to_char (sextet2 a b))
         (String (to_char (sextet3 b c))
            (String (to_char (sextet4 c)) (b64encode rest)))).
Proof. reflexivity. Qed.

Lemma b64_roundtrip_upto n data :
  length data <= n -> b64decode (b64encode data) = Some data.
Proof.
  revert data. induction n as [|n IH]; intros data Hlen.
  - destruct data; [reflexivity | simpl in Hlen; lia].
  - destruct data as [|a [|b [|c rest]]]; [reflexivity| | |].
    + change (b64encode [a]) with
        (String (to_char (sextet1 a))
           (String (to_char (sextet2 a Byte.x00))
              (String pad (String pad EmptyString)))).
      rewrite (b64decode_one _ _ _ _ (of_to_char1 a) (of_to_char2 a Byte.x00)).
      destruct (octets_of_sextets a Byte.x00) as (-> & _). reflexivity.
    + change (b64encode [a; b]) with
        (String (to_char (sextet1 a))
           (String (to_char (sextet2 a b))
              (String (to_char (sextet3 b Byte.x00))
                 (String pad EmptyString)))).
      rewrite (b64decode_two _ _ _ _ _ _ (of_to_char1 a) (of_to_char2 a b)
                 (proj1 (of_to_char3 b Byte.x00))
                 (proj2 (of_to_char3 b Byte.x00))).
      destruct (octets_of_sextets a b) as (-> & _).
      rewrite octet2_of_sextets. reflexivity.
    + rewrite b64encode_group.
      rewrite (b64decode_group _ _ _ _ _ _ _ _ _
                 (of_to_char1 a) (of_to_char2 a b)
                 (proj1 (of_to_char3 b c)) (proj1 (of_to_char4 c))
                 (proj2 (of_to_char3 b c)) (proj2 (of_to_char4 c))).
      rewrite IH by (simpl in Hlen; lia).
      destruct (octets_of_sextets a b) as (-> & _).
      rewrite octet2_of_sextets, octet3_of_sextets. reflexivity.
Qed.

Lemma b64_roundtrip data : b64decode (b64encode data) = Some data.
Proof. apply (b64_roundtrip_upto (length data)). lia. Qed.

Lemma safe_chars a b :
  transport_safe (to_char (sextet1 a)) = true
  /\ transport_safe (to_char (sextet2 a b)) = true
  /\ transport_safe (to_char (sextet3 a b)) = true
  /\ transport_safe (to_char (sextet4 a)) = true.
Proof.
  destruct (sextets_read_back a b) as (H1 & H2 & H3 & H4).
  apply reads_back_spec in H1 as (_ & _ & H1).
  apply reads_back_spec in H2 as (_ & _ & H2).
  apply reads_back_spec in H3 as (_ & _ & H3).
  apply reads_back_spec in H4 as (_ & _ & H4).
  auto.
Qed.

Lemma all_chars_cons p c s :
  all_chars p (String c s) = p c && all_chars p s.
Proof. reflexivity. Qed.

Lemma b64_transport_safe_upto n data :
  length data <= n -> all_chars transport_safe (b64encode data) = true.
Proof.
  revert data. induction n as [|n IH]; intros data Hlen.
  - destruct data; [reflexivity | simpl in Hlen; lia].
  - destruct data as [|a [|b [|c rest]]]; [reflexivity| | |].
    + change (b64encode [a]) with
        (String (to_char (sextet1 a))
           (String (to_char (sextet2 a Byte.x00))
              (String pad (String pad EmptyString)))).
      rewrite !all_chars_cons.
      destruct (safe_chars a Byte.x00) as (-> & -> & _). reflexivity.
    + change (b64encode [a; b]) with
        (String (to_char (sextet1 a))
           (String (to_char (sextet2 a b))
              (String (to_char (sextet3 b Byte.x00))
                 (String pad EmptyString)))).
      rewrite !all_chars_cons.
      destruct (safe_chars a b) as (-> & -> & _).
      destruct (safe_chars b Byte.x00) as (_ & _ & -> & _). reflexivity.
    + rewrite b64encode_group, !all_chars_cons.
      rewrite IH by (simpl in Hlen; lia).
      destruct (safe_chars a b) as (-> & -> & _).
      destruct (safe_chars b c) as (_ & _ & -> & _).
      destruct (safe_chars c c) as (_ & _ & _ & ->). reflexivity.
Qed.

Lemma b64_transport_safe data :
  all_chars transport_safe (b64encode data) = true.
Proof. apply (b64_transport_safe_upto (length data)). lia. Qed.

Lemma b64_nonempty data : data <> [] -> b64encode data <> EmptyString.
Proof.
  destruct data as [|a [|b [|c rest]]]; [congruence| | |]; intros _;
    discriminate.
Qed.

End Base64Facts.

(** ** Byte streams *)

Lemma read_new data : fst (IO.read (IO.new data)) = data.
Proof. reflexivity. Qed.

Lemma read_after_write data :
  fst (IO.read (IO.seek 0 (IO.write data (IO.new [])))) = data.
Proof.
  unfold IO.read, IO.seek, IO.write, IO.new. simpl.
  by rewrite drop_0, drop_nil, app_nil_r.
Qed.

(** ** Rendering *)

Section RenderFacts.

Variable to_str : value -> string.




End RenderFacts.


(** ** Submission *)

Section SubmitFacts.

Variable to_str : value -> string.
Variable get_template : string -> result Jinja.Template.
Variable convert : list Byte.byte -> result (CVForm.pisaContext * list Byte.byte).

Abbreviation submit := (CVForm.submit to_str get_template convert).
Abbreviation output := (output_text to_str get_template convert).


Lemma submit_output form_data :
  submit form_data = ret {[ "output" := VStr (output form_data) ]}.
Proof.
  unfold CVForm.submit, output_text, CVForm.CreatePDF, CVForm.log_debug,
    CVForm.log_error, try_except, bind, ret, raise.
  destruct (get_template CVForm.template_file) as [e|template];
    [reflexivity|].
  destruct (Jinja.render _ _ template form_data) as [e|rendered_cv];
    [reflexivity|].
  rewrite read_new.
  destruct (convert (CVForm.encode_utf8 rendered_cv)) as [e|[status pdf]];
    [reflexivity|].
  cbn [fst snd]. by rewrite read_after_write.
Qed.

Lemma submit_link form_data template rendered_cv status pdf :
  get_template CVForm.template_file = ret template ->
  Jinja.render to_str CVForm.template_env template form_data
  = ret rendered_cv ->
  convert (CVForm.encode_utf8 rendered_cv) = ret (status, pdf) ->
  submit form_data
  = ret {[ "output" :=
             VStr (CVForm.download_link (Base64.b64encode pdf)) ]}.
Proof.
  intros Ht Hr Hc. rewrite submit_output. unfold output_text, ret in *.
  rewrite Ht. rewrite Hr. rewrite Hc. reflexivity.
Qed.

Lemma submit_failure form_data e :
  output form_data = CVForm.failure_text e ->
  submit form_data
  = ret {[ "output" :=
             VStr ("An error occurred while generating your CV: "
                     ++ exn_str e) ]}.
Proof. intros H. rewrite submit_output. by rewrite H. Qed.

(** C10.  For every form data, template loader and converter, [submit]
    returns a mapping with the one key ["output"] and a text that is not
    empty, and raises nothing: what the loader, the renderer or the
    converter raises is caught, and the text is then "An error occurred
    while generating your CV: " followed by the text of the exception. *)
Theorem submit_returns_output (form_data : dict) :
  (exists text,
     submit form_data = ret {[ "output" := VStr text ]}
     /\ text <> EmptyString)
  /\ (forall e, submit form_data <> raise e)
  /\ (forall e,
        get_template CVForm.template_file = raise e ->
        submit form_data
        = ret {[ "output" :=
                   VStr ("An error occurred while generating your CV: "
                           ++ exn_str e) ]})
  /\ (forall template e,
        get_template CVForm.template_file = ret template ->
        Jinja.render to_str CVForm.template_env template form_data
        = raise e ->
        submit form_data
        = ret {[ "output" :=
                   VStr ("An error occurred while generating your CV: "
                           ++ exn_str e) ]})
  /\ (forall template rendered_cv e,
        get_template CVForm.template_file = ret template ->
        Jinja.render to_str CVForm.template_env template form_data
        = ret rendered_cv ->
        convert (CVForm.encode_utf8 rendered_cv) = raise e ->
        submit form_data
        = ret {[ "output" :=
                   VStr ("An error occurred while generating your CV: "
                           ++ exn_str e) ]}).
Proof.
  pose proof (submit_output form_data) as H.
  split; [|split; [|split; [|split]]].
  - exists (output form_data). split; [exact H|].
    unfold output_text.
    destruct (get_template CVForm.template_file) as [e|template];
      [discriminate|].
    destruct (Jinja.render _ _ template form_data) as [e|rendered_cv];
      [discriminate|].
    destruct (convert (CVForm.encode_utf8 rendered_cv)) as [e|status];
      discriminate.
  - intros e He. rewrite H in He. discriminate He.
  - intros e Ht. apply submit_failure. unfold output_text, raise in *.
    by rewrite Ht.
  - intros template e Ht Hr. apply submit_failure.
    unfold output_text, ret, raise in *. rewrite Ht. by rewrite Hr.
  - intros template rendered_cv e Ht Hr Hc. apply submit_failure.
    unfold output_text, ret, raise in *. rewrite Ht. rewrite Hr.
    by rewrite Hc.
Qed.


(** C3, what the code does in place of the claim.  When the converter
    returns without raising, [submit] hands out the download link over
    whatever bytes were written, also when the context it returns counts
    errors. *)
Theorem conversion_errors_not_reported form_data template rendered_cv
    status pdf :
  get_template CVForm.template_file = ret template ->
  Jinja.render to_str CVForm.template_env template form_data
  = ret rendered_cv ->
  convert (CVForm.encode_utf8 rendered_cv) = ret (status, pdf) ->
  0 < CVForm.err status ->
  submit form_data
  = ret {[ "output" :=
             VStr (CVForm.download_link (Base64.b64encode pdf)) ]}.
Proof.
  intros Ht Hr Hc _. by apply submit_link with template rendered_cv status.
Qed.

(** C5, as the code has it.  When loading, rendering and converting raise
    nothing, [submit] returns a mapping with the one key ["output"], an
    HTML anchor whose [href] is a data URI of type [application/pdf] with
    the Base64 text of the bytes the converter wrote, and whose download
    name is [cv.pdf].  The Base64 text is safe to send as text, decodes to
    those bytes, and is not empty when they are not. *)
Theorem submit_delivers_link form_data template rendered_cv status pdf :
  get_template CVForm.template_file = ret template ->
  Jinja.render to_str CVForm.template_env template form_data
  = ret rendered_cv ->
  convert (CVForm.encode_utf8 rendered_cv) = ret (status, pdf) ->
  let encoded_pdf := Base64.b64encode pdf in
  submit form_data
  = ret {[ "output" :=
             VStr ("<a href='data:application/pdf;base64," ++ encoded_pdf
                     ++ "' download='cv.pdf'>Download CV</a>") ]}
  /\ Base64.all_chars Base64.transport_safe encoded_pdf = true
  /\ Base64.b64decode encoded_pdf = Some pdf
  /\ (pdf <> [] -> encoded_pdf <> EmptyString).
Proof.
  intros Ht Hr Hc. cbv zeta. split; [|split; [|split]].
  - by apply submit_link with template rendered_cv status.
  - apply Base64Facts.b64_transport_safe.
  - apply Base64Facts.b64_roundtrip.
  - apply Base64Facts.b64_nonempty.
Qed.

End SubmitFacts.

(** C3, witness: the sample template and record, and a converter that
    counts one error, writes nothing and returns. *)
Lemma conversion_errors_not_reported_witness :
  CVForm.submit Sample.text_of Sample.one_template Sample.failed_quietly
    Sample.ada
  = ret {[ "output" := VStr (CVForm.download_link EmptyString) ]}.
Proof.
  apply (conversion_errors_not_reported Sample.text_of Sample.one_template
           Sample.failed_quietly Sample.ada Sample.greeting "<h1></h1>"
           {| CVForm.err := 1; CVForm.warn := 0 |} []).
  - reflexivity.
  - reflexivity.
  - reflexivity.
  - simpl. lia.
Defined.

(** C5, witness: the sample template and record, and a converter that
    writes the first bytes of a PDF. *)
Lemma submit_delivers_link_witness :
  CVForm.submit Sample.text_of Sample.one_template Sample.converted
    Sample.ada
  = ret {[ "output" :=
             VStr ("<a href='data:application/pdf;base64,JVBERi0xLjQ="
                     ++ "' download='cv.pdf'>Download CV</a>") ]}
  /\ Base64.b64decode "JVBERi0xLjQ=" = Some (list_byte_of_string "%PDF-1.4").
Proof.
  pose proof (submit_delivers_link Sample.text_of Sample.one_template
                Sample.converted Sample.ada Sample.greeting "<h1></h1>"
                {| CVForm.err := 0; CVForm.warn := 0 |}
                (list_byte_of_string "%PDF-1.4")
                eq_refl eq_refl eq_refl) as (H1 & _ & H3 & _).
  split; [exact H1 | exact H3].
Defined.

(** C5, counterexample: with a converter that returns after writing
    nothing, [submit] returns its download link all the same; the mapping
    has no [mime_type], [filename] or [encoded_bytes] entry, and the
    Base64 text inside the link is empty. *)
Lemma empty_artifact_delivered :
  exists payload,
    CVForm.submit Sample.text_of Sample.one_template Sample.failed_quietly
      Sample.ada
    = ret payload
    /\ payload = {[ "output" := VStr (CVForm.download_link EmptyString) ]}
    /\ payload !! "mime_type" = None
    /\ payload !! "filename" = None
    /\ payload !! "encoded_bytes" = None.
Proof.
  eexists. split; [reflexivity|]. split; [reflexivity|].
  repeat split; reflexivity.
Qed.

(** ** The lifecycle *)

Section LifecycleFacts.

Import Lifecycle.

Variable set_iter : list string -> list string.
Variable check_http_url : string -> option url_refusal.
Variable to_str : value -> string.
Variable get_template : string -> result Jinja.Template.
Variable convert : list Byte.byte -> result (CVForm.pisaContext * list Byte.byte).
Variable require_confirmation : bool.

Abbreviation complete' := (complete set_iter check_http_url).
Abbreviation session_ok' :=
  (session_ok set_iter check_http_url to_str get_template convert).
Abbreviation step' :=
  (step set_iter check_http_url to_str get_template convert
     require_confirmation).
Abbreviation run' :=
  (run set_iter check_http_url to_str get_template convert
     require_confirmation).
Abbreviation pipeline := (CVForm.submit to_str get_template convert).

Lemma start_ok : session_ok' start.
Proof. by split. Qed.

Lemma step_ok s e : session_ok' s -> session_ok' (step' s e).
Proof.
  unfold session_ok, step.
  destruct (current s) eqn:Hs, e as [partial_field_map|[|]|]; simpl;
    rewrite ?Hs; try tauto.
  - intros [Hlog Hreply].
    destruct (complete' (partial_field_map ∪ record s)) eqn:Hc; simpl;
      [|done].
    destruct require_confirmation; simpl; [done|].
    by rewrite Hlog.
  - intros (Hlog & Hc & Hreply). by rewrite Hlog.
Qed.

Lemma run_from_ok events s :
  session_ok' s -> session_ok' (fold_left step' events s).
Proof.
  revert s. induction events as [|e events IH]; intros s Hs; simpl; [done|].
  by apply IH, step_ok.
Qed.

Lemma submitted_stays s more :
  current s = SUBMITTED -> fold_left step' more s = s.
Proof.
  intros Hs. induction more as [|e more IH]; simpl; [done|].
  assert (Hstep : step' s e = s) by (unfold step; rewrite Hs; by destruct e).
  by rewrite Hstep.
Qed.

(** C4, as the code has it.  Whatever calls are made on a session, the
    session holds a reply of [submit] exactly when it is [SUBMITTED], the
    reply is the one for the session's record, the pipeline has then run
    once, on that record, which builds a [CV] without error, and no later
    call changes the session; in every other state the pipeline has not
    run and there is no reply. *)
Theorem pipeline_runs_once_on_validated_record (events : list event) :
  let s := run' events in
  length (pipeline_log s) <= 1
  /\ Forall (fun r => complete' r = true) (pipeline_log s)
  /\ (current s = SUBMITTED <-> length (pipeline_log s) = 1)
  /\ ((current s <> SUBMITTED /\ reply s = None /\ pipeline_log s = [])
      \/ (current s = SUBMITTED
          /\ reply s = Some (pipeline (record s))
          /\ pipeline_log s = [record s]
          /\ passed (model_validate set_iter check_http_url (record s))
             = true))
  /\ (current s = SUBMITTED -> forall more, run' (events ++ more) = s).
Proof.
  cbv zeta. unfold run.
  pose proof (run_from_ok events start start_ok) as H.
  pose proof (fun Hs more =>
                submitted_stays (fold_left step' events start) more Hs)
    as Hstay.
  unfold session_ok in H.
  destruct (current (fold_left step' events start)) eqn:E.
  - destruct H as [H Hr]. rewrite H. simpl.
    split; [lia|]. split; [constructor|]. split; [done|].
    split; [|discriminate]. left. by repeat split.
  - destruct H as (H & _ & Hr). rewrite H. simpl.
    split; [lia|]. split; [constructor|]. split; [done|].
    split; [|discriminate]. left. by repeat split.
  - destruct H as (H & Hc & Hr). rewrite H. simpl.
    split; [lia|]. split; [by repeat constructor|]. split; [done|].
    split; [right; by repeat split|].
    intros _ more. rewrite fold_left_app. by apply Hstay.
  - destruct H as [H Hr]. rewrite H. simpl.
    split; [lia|]. split; [constructor|]. split; [done|].
    split; [|discriminate]. left. by repeat split.
Qed.

End LifecycleFacts.

(** C4, counterexample: the sample record with a blank name and a blank
    summary builds a [CV], so after an update with it and a confirmation
    the session is [SUBMITTED] and the pipeline has run on it, though two
    of its required scalar fields are empty. *)
Lemma blank_record_is_submitted :
  let s := Lifecycle.run Sample.source_order Sample.any_url Sample.text_of
             Sample.one_template Sample.converted CVForm.ask_confirm
             [Lifecycle.update Sample.blank; Lifecycle.confirm true] in
  Lifecycle.current s = Lifecycle.SUBMITTED
  /\ Lifecycle.pipeline_log s = [Sample.blank]
  /\ Lifecycle.reply s
     = Some (CVForm.submit Sample.text_of Sample.one_template
               Sample.converted Sample.blank)
  /\ Sample.blank !! "full_name" = Some (VStr "")
  /\ Sample.blank !! "summary" = Some (VStr "")
  /\ well_formed Sample.source_order Sample.any_url Sample.blank = false.
Proof.
  cbv zeta.
  split; [vm_compute; reflexivity|].
  split; [vm_compute; reflexivity|].
  split; [vm_compute; reflexivity|].
  split; [reflexivity|].
  split; [reflexivity|].
  vm_compute. reflexivity.
Qed.

(** * Further properties of the code *)


(** ** What the list validators look at *)

Lemma all_keys_in_dom set_iter required_keys (item item' : dict) :
  dom item = dom item' ->
  all_keys_in set_iter required_keys item
  = all_keys_in set_iter required_keys item'.
Proof. intros H. unfold all_keys_in, contains. by rewrite H. Qed.

Lemma for_item_dom set_iter required_keys message (value value' : list dict) :
  Forall2 (fun item item' => dom item = dom item') value value' ->
  for_item set_iter required_keys message value
  = for_item set_iter required_keys message value'.
Proof.
  induction 1 as [|item item' rest rest' H _ IH]; simpl; [done|].
  rewrite (all_keys_in_dom _ _ _ _ H). by rewrite IH.
Qed.

(** X1.  The list validators look at the keys of the entries and at
    nothing else: two lists whose entries have, one by one, the same keys
    are both returned as they are or both refused with the same error,
    whatever values the keys hold. *)
Theorem list_validators_read_keys_only
    (set_iter : list string -> list string) (value value' : list dict) :
  Forall2 (fun item item' => dom item = dom item') value value' ->
  ((validate_experience set_iter value = ret value
    /\ validate_experience set_iter value' = ret value')
   \/ exists e, validate_experience set_iter value = raise e
                /\ validate_experience set_iter value' = raise e)
  /\ ((validate_education set_iter value = ret value
       /\ validate_education set_iter value' = ret value')
      \/ exists e, validate_education set_iter value = raise e
                   /\ validate_education set_iter value' = raise e).
Proof.
  intros H. unfold validate_experience, validate_education.
  rewrite <- !(for_item_dom _ _ _ _ _ H).
  split.
  - destruct (for_item set_iter experience_keys _ value) as [e|[]]; simpl;
      [right; by exists e | by left].
  - destruct (for_item set_iter education_keys _ value) as [e|[]]; simpl;
      [right; by exists e | by left].
Qed.

(** X1, witness: the sample job, and the same job with [None] for every
    value. *)
Lemma list_validators_read_keys_only_witness :
  validate_experience Sample.source_order [Sample.job] = ret [Sample.job]
  /\ validate_experience Sample.source_order
       [(fun _ => VNone) <$> Sample.job]
     = ret [(fun _ => VNone) <$> Sample.job].
Proof.
  destruct (list_validators_read_keys_only Sample.source_order
              [Sample.job] [(fun _ => VNone) <$> Sample.job]) as [H _].
  - constructor; [|constructor]. by rewrite dom_fmap_L.
  - destruct H as [H|(e & H & _)]; [exact H | discriminate H].
Defined.

(** ** Missing fields *)

Lemma required_result_missing {A} name (ty : value -> line_errors + A)
    data name' i :
  (forall v es ie, ty v = inl es -> ie ∈ es -> snd ie <> missing) ->
  ErrorDetails name' i missing ∈ errors_of (required_result name ty data)
  <-> name' = name /\ i = None /\ data !! name = None.
Proof.
  intros Hty. destruct (data !! name) as [v|] eqn:E.
  - rewrite (required_result_present _ _ _ _ E).
    split; [|by intros (_ & _ & ?)].
    destruct (ty v) as [es|a] eqn:Ev; simpl.
    + intros ([i' t] & [= -> -> <-] & Hin)%list_elem_of_fmap.
      by destruct (Hty _ _ _ Ev Hin).
    + by intros ?%elem_of_nil.
  - rewrite (required_result_absent _ _ _ E). simpl.
    rewrite list_elem_of_singleton. split.
    + by intros [= -> ->].
    + by intros (-> & -> & _).
Qed.

Lemma defaulted_result_not_missing {A} name (ty : value -> line_errors + A)
    d data name' i :
  (forall v es ie, ty v = inl es -> ie ∈ es -> snd ie <> missing) ->
  ErrorDetails name' i missing ∉ errors_of (defaulted_result name ty d data).
Proof.
  intros Hty.
  unfold defaulted_result, defaulted, check_bind, check_ret, get_field. simpl.
  destruct (data !! name) as [v|]; simpl; [|apply not_elem_of_nil].
  destruct (ty v) as [es|a] eqn:Ev; simpl; [|apply not_elem_of_nil].
  intros ([i' t] & [= -> -> <-] & Hin)%list_elem_of_fmap.
  by destruct (Hty _ _ _ Ev Hin).
Qed.

Lemma str_type_not_missing v es ie :
  str_type v = inl es -> ie ∈ es -> snd ie <> missing.
Proof.
  destruct v; simpl; intros [= <-] ->%list_elem_of_singleton; discriminate.
Qed.

Lemma optional_not_missing {A} (inner : value -> line_errors + A) :
  (forall v es ie, inner v = inl es -> ie ∈ es -> snd ie <> missing) ->
  forall v es ie, optional inner v = inl es -> ie ∈ es -> snd ie <> missing.
Proof.
  intros H v es ie. unfold optional.
  destruct v; try discriminate;
    (destruct (inner _) eqn:E; [|discriminate]); intros [= <-];
    by eapply H.
Qed.

Lemma http_url_not_missing check_http_url v es ie :
  http_url check_http_url v = inl es -> ie ∈ es -> snd ie <> missing.
Proof.
  destruct v; simpl; try (intros [= <-] ->%list_elem_of_singleton;
                          discriminate).
  destruct (check_http_url s) as [[| |]|]; [| | |discriminate];
    intros [= <-] ->%list_elem_of_singleton; discriminate.
Qed.

Lemma list_field_not_missing {A} (item : value -> option A) bad
    (f : list A -> result (list A)) v es ie :
  bad <> missing ->
  field_validator (list_of item bad) f v = inl es -> ie ∈ es ->
  snd ie <> missing.
Proof.
  intros Hbad. unfold field_validator, list_of.
  destruct v; try (intros [= <-] ->%list_elem_of_singleton; discriminate).
  destruct (list_items item bad 0 l) as [es'|xs] eqn:E.
  - intros [= <-] Hin. by rewrite (list_items_errors _ _ _ _ _ _ E Hin).
  - destruct (f xs); [|discriminate].
    intros [= <-] ->%list_elem_of_singleton; discriminate.
Qed.

(** X2.  The model reports [missing] at a field exactly when the field is
    one of the six required ones and the record has no value for it; the
    error carries no item index, and the three fields with a default are
    never reported missing. *)
Theorem missing_reported_iff_required_absent
    (set_iter : list string -> list string)
    (check_http_url : string -> option url_refusal)
    (data : dict) (name : string) (i : option nat) :
  ErrorDetails name i missing
    ∈ errors_of (model_validate set_iter check_http_url data)
  <-> i = None /\ name ∈ required_fields /\ data !! name = None.
Proof.
  rewrite model_errors.
  rewrite !required_result_missing
    by first [ apply str_type_not_missing
             | intros ? ? ?; by apply list_field_not_missing ].
  pose proof (defaulted_result_not_missing "phone_number"
                (optional str_type) None data name i
                (optional_not_missing _ str_type_not_missing)) as H1.
  pose proof (defaulted_result_not_missing "linkedIn_profile"
                (optional (http_url check_http_url)) None data name i
                (optional_not_missing _ (http_url_not_missing check_http_url)))
    as H2.
  pose proof (defaulted_result_not_missing "portfolio_website"
                (optional (http_url check_http_url)) None data name i
                (optional_not_missing _ (http_url_not_missing check_http_url)))
    as H3.
  unfold required_fields. rewrite !elem_of_cons, elem_of_nil.
  split.
  - intros [H|[H|[H|[H|[H|[H|[H|[H|H]]]]]]]];
      try (destruct H as (-> & -> & H)); tauto.
  - intros (-> & [->|[->|[->|[->|[->|[->|[]]]]]]] & H); tauto.
Qed.

(** ** Fields that may be left out *)

Lemma defaulted_result_errors {A} name (ty : value -> line_errors + A)
    d data e :
  e ∈ errors_of (defaulted_result name ty d data)
  <-> exists v es, data !! name = Some v /\ ty v = inl es
                   /\ e ∈ at_field name es.
Proof.
  unfold defaulted_result, defaulted, check_bind, check_ret, get_field. simpl.
  destruct (data !! name) as [v|]; simpl.
  - destruct (ty v) as [es|a] eqn:Ev; simpl.
    + split; [intros H; by exists v, es|].
      intros (v' & es' & [= <-] & Hes & H). rewrite Ev in Hes.
      by injection Hes as <-.
    + split; [by intros ?%elem_of_nil|].
      intros (v' & es' & [= <-] & Hes & _). rewrite Ev in Hes.
      discriminate Hes.
  - split; [by intros ?%elem_of_nil|].
    intros (v' & es' & Hv & _). discriminate Hv.
Qed.

Lemma optional_url_errors check_http_url v es :
  optional (http_url check_http_url) v = inl es
  <-> (exists s refusal, v = VStr s /\ check_http_url s = Some refusal
                         /\ es = [(None, url_error refusal)])
      \/ (v <> VNone /\ (forall s, v <> VStr s) /\ es = [(None, url_type)]).
Proof.
  destruct v as [| | |s| |]; simpl.
  - split; [discriminate|].
    intros [(s & r & Hs & _)|(Hn & _)]; [discriminate Hs | by destruct Hn].
  - split.
    + intros [= <-]. right. repeat split; congruence.
    + intros [(s & r & Hs & _)|(_ & _ & ->)]; [discriminate Hs | done].
  - split.
    + intros [= <-]. right. repeat split; congruence.
    + intros [(s & r & Hs & _)|(_ & _ & ->)]; [discriminate Hs | done].
  - destruct (check_http_url s) as [r|] eqn:Eu; split.
    + intros [= <-]. left. by exists s, r.
    + intros [(s' & r' & [= <-] & Hr & ->)|(_ & Hs & _)];
        [congruence | by destruct (Hs s)].
    + discriminate.
    + intros [(s' & r' & [= <-] & Hr & _)|(_ & Hs & _)];
        [congruence | by destruct (Hs s)].
  - split.
    + intros [= <-]. right. repeat split; congruence.
    + intros [(s & r & Hs & _)|(_ & _ & ->)]; [discriminate Hs | done].
  - split.
    + intros [= <-]. right. repeat split; congruence.
    + intros [(s & r & Hs & _)|(_ & _ & ->)]; [discriminate Hs | done].
Qed.

Lemma optional_str_errors v es :
  optional str_type v = inl es
  <-> v <> VNone /\ (forall s, v <> VStr s) /\ es = [(None, string_type)].
Proof.
  destruct v; simpl; split; try (intros [= <-]); try discriminate;
    try (repeat split; congruence);
    intros (Hn & Hs & ->); try congruence; try reflexivity;
    by destruct (Hs s).
Qed.

Ltac at_own_field H :=
  apply model_errors_at in H;
  destruct H as [[Hloc H]|[[Hloc H]|[[Hloc H]|[[Hloc H]|[[Hloc H]|[[Hloc H]|
                [[Hloc H]|[[Hloc H]|[Hloc H]]]]]]]]].

(** X3.  The errors of [linkedIn_profile] and [portfolio_website]: a str
    the URL parser refuses is reported under the kind of the refusal
    ([url_parsing], [url_scheme] or [url_too_long]), a value that is
    neither [None] nor a str as [url_type], and nothing else is reported
    there, so a field left out, [None] or a str the parser takes passes. *)
Theorem url_field_errors
    (set_iter : list string -> list string)
    (check_http_url : string -> option url_refusal)
    (data : dict) (name : string) (e : error_details) :
  name ∈ url_fields ->
  (e ∈ errors_of (model_validate set_iter check_http_url data) /\ loc e = name
   <-> exists v,
         data !! name = Some v
         /\ ((exists s refusal,
                v = VStr s /\ check_http_url s = Some refusal
                /\ e = ErrorDetails name None (url_error refusal))
             \/ (v <> VNone /\ (forall s, v <> VStr s)
                 /\ e = ErrorDetails name None url_type))).
Proof.
  intros Hname.
  assert (Hfield :
    e ∈ errors_of (model_validate set_iter check_http_url data) /\ loc e = name
    <-> e ∈ errors_of (defaulted_result name
                         (optional (http_url check_http_url)) None data)).
  { unfold url_fields in Hname.
    rewrite !elem_of_cons, elem_of_nil in Hname.
    destruct Hname as [->|[->|[]]].
    - split.
      + intros [H Hn]. at_own_field H; rewrite Hn in Hloc;
          try discriminate Hloc. exact H.
      + intros H. split; [|by apply defaulted_result_loc in H].
        apply model_errors. tauto.
    - split.
      + intros [H Hn]. at_own_field H; rewrite Hn in Hloc;
          try discriminate Hloc. exact H.
      + intros H. split; [|by apply defaulted_result_loc in H].
        apply model_errors. tauto. }
  rewrite Hfield, defaulted_result_errors. split.
  - intros (v & es & Hv & Hes & He). exists v. split; [done|].
    apply optional_url_errors in Hes
      as [(s & r & -> & Hu & ->)|(Hn & Hs & ->)];
      apply list_elem_of_singleton in He as ->; [left|right]; eauto.
  - intros (v & Hv & [(s & r & -> & Hu & ->)|(Hn & Hs & ->)]).
    + exists (VStr s), [(None, url_error r)]. split; [done|].
      split; [|by apply list_elem_of_singleton].
      apply optional_url_errors. left. eauto.
    + exists v, [(None, url_type)]. split; [done|].
      split; [|by apply list_elem_of_singleton].
      apply optional_url_errors. by right.
Qed.

(** X3, witness: the sample record with a number for
    [linkedIn_profile]. *)
Lemma url_field_errors_witness :
  ErrorDetails "linkedIn_profile" None url_type
    ∈ errors_of (model_validate Sample.source_order Sample.any_url
                   (<["linkedIn_profile" := VInt 7]> Sample.ada)).
Proof.
  assert (Hin : "linkedIn_profile" ∈ url_fields)
    by (apply list_elem_of_In; simpl; tauto).
  apply (proj2 (url_field_errors Sample.source_order Sample.any_url
                  (<["linkedIn_profile" := VInt 7]> Sample.ada)
                  "linkedIn_profile" _ Hin)).
  exists (VInt 7). split; [reflexivity|]. right. repeat split; congruence.
Defined.

(** X4.  The only error of [phone_number] is [string_type], for a value
    that is neither [None] nor a str: any str is taken, whatever its
    format, and the field may be left out. *)
Theorem phone_number_errors
    (set_iter : list string -> list string)
    (check_http_url : string -> option url_refusal)
    (data : dict) (e : error_details) :
  e ∈ errors_of (model_validate set_iter check_http_url data)
  /\ loc e = "phone_number"
  <-> exists v,
        data !! "phone_number" = Some v
        /\ v <> VNone /\ (forall s, v <> VStr s)
        /\ e = ErrorDetails "phone_number" None string_type.
Proof.
  assert (Hfield :
    e ∈ errors_of (model_validate set_iter check_http_url data)
    /\ loc e = "phone_number"
    <-> e ∈ errors_of (defaulted_result "phone_number"
                         (optional str_type) None data)).
  { split.
    - intros [H Hn]. at_own_field H; rewrite Hn in Hloc;
        try discriminate Hloc. exact H.
    - intros H. split; [|by apply defaulted_result_loc in H].
      apply model_errors. tauto. }
  rewrite Hfield, defaulted_result_errors. split.
  - intros (v & es & Hv & Hes & He). exists v. split; [done|].
    apply optional_str_errors in Hes as (Hn & Hs & ->).
    by apply list_elem_of_singleton in He as ->.
  - intros (v & Hv & Hn & Hs & ->).
    exists v, [(None, string_type)]. split; [done|].
    split; [|by apply list_elem_of_singleton].
    by apply optional_str_errors.
Qed.

(** ** What a validated record holds *)

Lemma for_item_returned set_iter required_keys message value :
  for_item set_iter required_keys message value = ret tt ->
  Forall (fun item => all_keys_in set_iter required_keys item = true) value.
Proof.
  induction value as [|item rest IH]; simpl; [constructor|].
  destruct (all_keys_in set_iter required_keys item) eqn:E; [|discriminate].
  intros H. constructor; [done | by apply IH].
Qed.

Lemma field_validator_inr {A} (ty : value -> line_errors + A)
    (f : A -> result A) v a :
  field_validator ty f v = inr a ->
  exists a', ty v = inr a' /\ f a' = ret a.
Proof.
  unfold field_validator. destruct (ty v) as [|a']; [discriminate|].
  destruct (f a') as [|a''] eqn:E; [discriminate|]. intros [= <-]. eauto.
Qed.

Lemma has_all_keys set_iter required_keys (item : dict) :
  (forall keys, set_iter keys ≡ₚ keys) ->
  all_keys_in set_iter required_keys item = true ->
  forall key, key ∈ required_keys -> key ∈ dom item.
Proof.
  intros Hperm H key Hin.
  apply (all_keys_in_true set_iter Hperm) in H.
  destruct (decide (key ∈ dom item)) as [|Hout]; [done|].
  destruct H. by exists key.
Qed.

(** X5.  A record the model has validated has at least one skill, and each
    of its experience and education entries has every key required of
    it. *)
Theorem validated_record_well_formed
    (set_iter : list string -> list string)
    (check_http_url : string -> option url_refusal)
    (data : dict) (cv : CV) :
  (forall keys, set_iter keys ≡ₚ keys) ->
  model_validate set_iter check_http_url data = inr cv ->
  skills cv <> []
  /\ Forall (fun item => forall key, key ∈ experience_keys -> key ∈ dom item)
       (experience cv)
  /\ Forall (fun item => forall key, key ∈ education_keys -> key ∈ dom item)
       (education cv).
Proof.
  intros Hperm H.
  apply model_validate_inr in H
    as (_ & _ & _ & _ & _ & _ & Hs & Hx & He).
  apply required_result_inr in Hs as (vs & _ & Hs).
  apply required_result_inr in Hx as (vx & _ & Hx).
  apply required_result_inr in He as (ve & _ & He).
  apply field_validator_inr in Hs as (ss & _ & Hs).
  apply field_validator_inr in Hx as (xs & _ & Hx).
  apply field_validator_inr in He as (es & _ & He).
  split; [|split].
  - destruct ss; [discriminate Hs|]. by injection Hs as <-.
  - unfold validate_experience in Hx.
    destruct (for_item set_iter experience_keys _ xs) as [|[]] eqn:E;
      [discriminate Hx|]. injection Hx as <-.
    apply for_item_returned in E.
    eapply Forall_impl; [exact E|]. intros item. by apply has_all_keys.
  - unfold validate_education in He.
    destruct (for_item set_iter education_keys _ es) as [|[]] eqn:E;
      [discriminate He|]. injection He as <-.
    apply for_item_returned in E.
    eapply Forall_impl; [exact E|]. intros item. by apply has_all_keys.
Qed.

(** X5, witness: the sample record, with the keys iterated in the order of
    the literal. *)
Lemma validated_record_well_formed_witness :
  skills Sample.ada_cv <> []
  /\ Forall (fun item => forall key, key ∈ experience_keys -> key ∈ dom item)
       (experience Sample.ada_cv)
  /\ Forall (fun item => forall key, key ∈ education_keys -> key ∈ dom item)
       (education Sample.ada_cv).
Proof.
  apply (validated_record_well_formed Sample.source_order Sample.any_url
           Sample.ada Sample.ada_cv (fun keys => reflexivity keys)).
  vm_compute. reflexivity.
Defined.

(** ** The order in which the key sets are iterated *)

Lemma same_outcome_refl {A} (r : validation A) : same_outcome r r.
Proof. by destruct r. Qed.

Lemma same_outcome_ap {A B} (f f' : validation (A -> B))
    (x x' : validation A) :
  same_outcome f f' -> same_outcome x x' ->
  same_outcome (f <@> x) (f' <@> x').
Proof.
  destruct f, f', x, x'; simpl; try done;
    intros H1 H2; rewrite ?map_app; congruence.
Qed.

Section SetOrder.

Variables it1 it2 : list string -> list string.
Hypothesis it1_perm : forall keys, it1 keys ≡ₚ keys.
Hypothesis it2_perm : forall keys, it2 keys ≡ₚ keys.

Lemma all_keys_in_any_order required_keys item :
  all_keys_in it1 required_keys item = all_keys_in it2 required_keys item.
Proof.
  destruct (all_keys_in it2 required_keys item) eqn:E.
  - apply (all_keys_in_true it1 it1_perm).
    by apply (all_keys_in_true it2 it2_perm).
  - apply not_true_is_false. intros H.
    apply (all_keys_in_true it1 it1_perm) in H.
    apply (all_keys_in_true it2 it2_perm) in H. congruence.
Qed.

Lemma for_item_any_order required_keys message message' value :
  match for_item it1 required_keys message value,
        for_item it2 required_keys message' value with
  | inr _, inr _ | inl _, inl _ => True
  | _, _ => False
  end.
Proof.
  induction value as [|item rest IH]; simpl; [done|].
  rewrite all_keys_in_any_order.
  by destruct (all_keys_in it2 required_keys item).
Qed.

Lemma list_field_any_order name required_keys message message' data :
  same_outcome
    (required_result name
       (field_validator (list_of dict_item dict_type)
          (fun value => _ <- for_item it1 required_keys message value ;;
                        ret value)) data)
    (required_result name
       (field_validator (list_of dict_item dict_type)
          (fun value => _ <- for_item it2 required_keys message' value ;;
                        ret value)) data).
Proof.
  destruct (data !! name) as [v|] eqn:E.
  - rewrite !(required_result_present _ _ _ _ E). unfold field_validator.
    destruct (list_of dict_item dict_type v) as [es|ds]; [done|].
    pose proof (for_item_any_order required_keys message message' ds) as H.
    destruct (for_item it1 required_keys message ds),
      (for_item it2 required_keys message' ds); simpl; done.
  - by rewrite !(required_result_absent _ _ _ E).
Qed.

(** X6.  Whether the model accepts a record, the record it builds and the
    places of the errors it reports do not depend on the order in which
    the required-key sets are iterated. *)
Theorem outcome_independent_of_set_order
    (check_http_url : string -> option url_refusal) (data : dict) :
  passed (model_validate it1 check_http_url data)
  = passed (model_validate it2 check_http_url data)
  /\ (forall cv, model_validate it1 check_http_url data = inr cv
                 <-> model_validate it2 check_http_url data = inr cv)
  /\ map place (errors_of (model_validate it1 check_http_url data))
     = map place (errors_of (model_validate it2 check_http_url data)).
Proof.
  assert (H : same_outcome (model_validate it1 check_http_url data)
                (model_validate it2 check_http_url data)).
  { rewrite !model_validate_fields.
    repeat apply same_outcome_ap; try apply same_outcome_refl.
    - apply list_field_any_order.
    - apply list_field_any_order. }
  destruct (model_validate it1 check_http_url data) as [es|cv1],
    (model_validate it2 check_http_url data) as [es'|cv2]; simpl in H;
    try contradiction.
  - split; [reflexivity|]. split; [|exact H].
    intros cv. split; intros Hcv; discriminate Hcv.
  - subst. split; [reflexivity|]. split; [|reflexivity].
    intros cv. reflexivity.
Qed.

End SetOrder.

(** X6, witness: the order of the literal against its reverse, on the
    sample record. *)
Lemma outcome_independent_of_set_order_witness :
  passed (model_validate Sample.source_order Sample.any_url Sample.ada)
  = passed (model_validate Sample.reversed Sample.any_url Sample.ada).
Proof.
  apply (outcome_independent_of_set_order Sample.source_order Sample.reversed
           (fun keys => reflexivity keys)
           (fun keys => reverse_Permutation keys) Sample.any_url Sample.ada).
Defined.
(** ** Items of the wrong type *)

Lemma list_items_error_at {A} (item : value -> option A) bad i0 l es ie :
  list_items item bad i0 l = inl es ->
  ie ∈ es <-> exists k v, l !! k = Some v /\ item v = None
                          /\ ie = (Some (i0 + k), bad).
Proof.
  revert i0 es. induction l as [|v rest IH]; intros i0 es; simpl;
    [discriminate|].
  destruct (item v) as [a|] eqn:Ev,
    (list_items item bad (S i0) rest) as [es'|r] eqn:E; intros [= <-].
  - rewrite (IH _ _ E). split.
    + intros (k & w & Hk & Hw & ->). exists (S k), w.
      repeat split; [done..|]. do 2 f_equal. lia.
    + intros ([|k] & w & Hk & Hw & ->); simpl in Hk.
      * injection Hk as <-. congruence.
      * exists k, w. repeat split; [done..|]. do 2 f_equal. lia.
  - rewrite elem_of_cons, (IH _ _ E). split.
    + intros [->|(k & w & Hk & Hw & ->)].
      * exists 0, v. repeat split; [done..|]. do 2 f_equal. lia.
      * exists (S k), w. repeat split; [done..|]. do 2 f_equal. lia.
    + intros ([|k] & w & Hk & Hw & ->); simpl in Hk.
      * left. do 2 f_equal. lia.
      * right. exists k, w. repeat split; [done..|]. do 2 f_equal. lia.
  - rewrite list_elem_of_singleton. split.
    + intros ->. exists 0, v. repeat split; [done..|]. do 2 f_equal. lia.
    + intros ([|k] & w & Hk & Hw & ->); simpl in Hk.
      * do 2 f_equal. lia.
      * exfalso. clear IH. revert k i0 r E Hk.
        induction rest as [|u rest IH']; intros k i0 r E Hk;
          [discriminate Hk|].
        simpl in E.
        destruct (item u) as [b|] eqn:Eu,
          (list_items item bad (S (S i0)) rest) as [|r'] eqn:E';
          try discriminate E.
        destruct k as [|k]; simpl in Hk.
        -- injection Hk as <-. congruence.
        -- by eapply (IH' k (S i0)).
Qed.

Lemma list_items_all_good {A} (item : value -> option A) bad i0 l r k v :
  list_items item bad i0 l = inr r -> l !! k = Some v -> item v <> None.
Proof.
  revert i0 r k. induction l as [|u rest IH]; intros i0 r k; simpl;
    [discriminate|].
  destruct (item u) as [a|] eqn:Eu,
    (list_items item bad (S i0) rest) as [|r'] eqn:E; try discriminate.
  intros _. destruct k as [|k]; simpl.
  - intros [= <-]. congruence.
  - by eapply IH.
Qed.

Lemma list_field_item_error {A} name (item : value -> option A) bad
    (f : list A -> result (list A)) data k :
  ErrorDetails name (Some k) bad
    ∈ errors_of (required_result name (field_validator (list_of item bad) f)
                   data)
  <-> exists l v, data !! name = Some (VList l) /\ l !! k = Some v
                  /\ item v = None.
Proof.
  destruct (data !! name) as [v|] eqn:E.
  - rewrite (required_result_present _ _ _ _ E).
    unfold field_validator, list_of.
    destruct v as [| | | |l|];
      try (simpl; rewrite list_elem_of_singleton; split;
           [discriminate | by intros (? & ? & ? & _)]).
    destruct (list_items item bad 0 l) as [es|xs] eqn:El; simpl.
    + unfold at_field. rewrite list_elem_of_fmap. split.
      * intros ([i t] & [= <- <-] & Hin).
        apply (list_items_error_at _ _ _ _ _ _ El) in Hin
          as (k' & w & Hk & Hw & [= ->]). eauto.
      * intros (l' & w & [= <-] & Hk & Hw). exists (Some k, bad).
        split; [done|]. apply (list_items_error_at _ _ _ _ _ _ El). eauto.
    + split.
      * destruct (f xs); simpl; [|by intros ?%elem_of_nil].
        intros H%list_elem_of_singleton. discriminate H.
      * intros (l' & w & [= <-] & Hk & Hw).
        by destruct (list_items_all_good _ _ _ _ _ _ _ El Hk).
  - rewrite (required_result_absent _ _ _ E). simpl.
    rewrite list_elem_of_singleton.
    split; [discriminate | by intros (? & ? & ? & _)].
Qed.

Ltac at_own_field' H :=
  apply model_errors_at in H;
  destruct H as [[Hloc H]|[[Hloc H]|[[Hloc H]|[[Hloc H]|[[Hloc H]|[[Hloc H]|
                [[Hloc H]|[[Hloc H]|[Hloc H]]]]]]]]];
  try discriminate Hloc.

(** X7.  An item of the wrong type in [skills], [experience] or
    [education] is reported at its own index: [string_type] at index [k]
    of [skills] exactly when the [k]-th skill is not a str, [dict_type] at
    index [k] of the other two exactly when the [k]-th entry is not a
    dict. *)
Theorem wrong_items_reported_by_index
    (set_iter : list string -> list string)
    (check_http_url : string -> option url_refusal)
    (data : dict) (k : nat) :
  (ErrorDetails "skills" (Some k) string_type
     ∈ errors_of (model_validate set_iter check_http_url data)
   <-> exists l v, data !! "skills" = Some (VList l) /\ l !! k = Some v
                   /\ str_item v = None)
  /\ (ErrorDetails "experience" (Some k) dict_type
        ∈ errors_of (model_validate set_iter check_http_url data)
      <-> exists l v, data !! "experience" = Some (VList l)
                      /\ l !! k = Some v /\ dict_item v = None)
  /\ (ErrorDetails "education" (Some k) dict_type
        ∈ errors_of (model_validate set_iter check_http_url data)
      <-> exists l v, data !! "education" = Some (VList l)
                      /\ l !! k = Some v /\ dict_item v = None).
Proof.
  split; [|split]; rewrite <- list_field_item_error; split.
  - intros H. at_own_field' H. exact H.
  - intros H. apply model_errors. do 6 right. left. exact H.
  - intros H. at_own_field' H. exact H.
  - intros H. apply model_errors. do 7 right. left. exact H.
  - intros H. at_own_field' H. exact H.
  - intros H. apply model_errors. do 8 right. exact H.
Qed.


(** ** The length of the Base64 text *)

Lemma b64encode_length_upto n data :
  length data <= n ->
  String.length (Base64.b64encode data) = 4 * ((length data + 2) / 3).
Proof.
  revert data. induction n as [|n IH]; intros data Hlen.
  - destruct data; [reflexivity | simpl in Hlen; lia].
  - destruct data as [|a [|b [|c rest]]]; [reflexivity..|].
    rewrite Base64Facts.b64encode_group. cbn [String.length length].
    rewrite IH by (simpl in Hlen; lia).
    replace (S (S (S (length rest))) + 2) with (1 * 3 + (length rest + 2))
      by lia.
    rewrite Nat.div_add_l by lia. lia.
Qed.

(** X8.  The Base64 text of [n] bytes has four characters for every three
    bytes, the last group rounded up: its length is [4 * ((n + 2) / 3)]. *)
Theorem b64encode_length (data : list Byte.byte) :
  String.length (Base64.b64encode data) = 4 * ((length data + 2) / 3).
Proof. apply (b64encode_length_upto (length data)). lia. Qed.

(** ** The link and the artifact *)

Lemma append_cancel_l (p x y : string) : p ++ x = p ++ y -> x = y.
Proof. induction p as [|c p IH]; simpl; [done|]. intros [= H]. by apply IH. Qed.

Lemma length_append (x y : string) :
  String.length (x ++ y) = String.length x + String.length y.
Proof. induction x as [|c x IH]; simpl; [done|]. by rewrite IH. Qed.

Lemma append_cancel_r (x y s : string) : x ++ s = y ++ s -> x = y.
Proof.
  revert y. induction x as [|c x IH]; intros [|d y] H; simpl in H.
  - done.
  - apply (f_equal String.length) in H.
    rewrite ?length_append in H. simpl in H. rewrite ?length_append in H. lia.
  - apply (f_equal String.length) in H.
    rewrite ?length_append in H. simpl in H. rewrite ?length_append in H. lia.
  - injection H as -> H. f_equal. by apply IH.
Qed.

Lemma b64encode_inj data data' :
  Base64.b64encode data = Base64.b64encode data' -> data = data'.
Proof.
  intros H. apply (f_equal Base64.b64decode) in H.
  rewrite !Base64Facts.b64_roundtrip in H. by injection H.
Qed.

(** X9.  The download link determines the artifact: two byte sequences
    that give the same link are the same. *)
Theorem link_determines_artifact (pdf pdf' : list Byte.byte) :
  CVForm.download_link (Base64.b64encode pdf)
  = CVForm.download_link (Base64.b64encode pdf') ->
  pdf = pdf'.
Proof.
  unfold CVForm.download_link. intros H.
  apply append_cancel_l, append_cancel_r in H. by apply b64encode_inj.
Qed.

(** X9, witness: the first bytes of a PDF. *)
Lemma link_determines_artifact_witness :
  list_byte_of_string "%PDF-1.4" = list_byte_of_string "%PDF-1.4".
Proof.
  apply (link_determines_artifact (list_byte_of_string "%PDF-1.4")
           (list_byte_of_string "%PDF-1.4")).
  reflexivity.
Defined.

(** ** Reading back what was written *)

Lemma write_at_end chunk buf :
  IO.write chunk {| IO.buffer := buf; IO.position := length buf |}
  = {| IO.buffer := (buf ++ chunk)%list;
       IO.position := length (buf ++ chunk)%list |}.
Proof.
  unfold IO.write. simpl.
  rewrite firstn_all, skipn_all2 by lia.
  by rewrite app_nil_r, length_app.
Qed.

Lemma write_all_fresh chunks buf :
  write_all chunks {| IO.buffer := buf; IO.position := length buf |}
  = {| IO.buffer := (buf ++ concat chunks)%list;
       IO.position := length (buf ++ concat chunks)%list |}.
Proof.
  revert buf. induction chunks as [|chunk chunks IH]; intros buf; simpl.
  - by rewrite app_nil_r.
  - change (write_all (chunk :: chunks) ?s)
      with (write_all chunks (IO.write chunk s)).
    rewrite write_at_end, IH. by rewrite <- app_assoc.
Qed.

(** X10.  After any number of writes to a fresh stream, reading from the
    rewound stream gives all the bytes written, in order; reading without
    rewinding gives none. *)
Theorem rewound_stream_reads_all (chunks : list (list Byte.byte)) :
  fst (IO.read (IO.seek 0 (write_all chunks (IO.new [])))) = concat chunks
  /\ fst (IO.read (write_all chunks (IO.new []))) = [].
Proof.
  change (IO.new []) with {| IO.buffer := []; IO.position := length ([] : list Byte.byte) |}.
  rewrite (write_all_fresh chunks []). simpl. split.
  - by rewrite drop_0.
  - by rewrite drop_all.
Qed.

(** ** The messages *)


Lemma substring_prefix (b c : string) :
  substring 0 (String.length b) (b ++ c) = b.
Proof.
  induction b as [|x b IH]; simpl.
  - destruct c; reflexivity.
  - rewrite IH. reflexivity.
Qed.

Lemma substring_inside (a b c : string) :
  substring (String.length a) (String.length b) (a ++ b ++ c) = b.
Proof.
  induction a as [|x a IH].
  - exact (substring_prefix b c).
  - exact IH.
Qed.

Lemma mentions_inside (a b c : string) : mentions b (a ++ b ++ c) = true.
Proof.
  unfold mentions.
  destruct (String.index 0 b (a ++ b ++ c)) eqn:E; [done|].
  destruct b as [|x b].
  - apply index_correct4 in E. lia.
  - exfalso.
    apply (index_correct3 0 (String.length a) _ _ E); [done | lia|].
    apply substring_inside.
Qed.

Lemma append_assoc (a b c : string) : (a ++ b) ++ c = a ++ b ++ c.
Proof.
  induction a as [|x a IH]; [reflexivity|].
  change (String x ((a ++ b) ++ c) = String x (a ++ b ++ c)).
  by f_equal.
Qed.

(** X11.  The prompts of [message_wait_confirm] and [message_incomplete]
    contain the framework's base message as it is; each of the three
    messages returns the model's reply under ["output"], and what the call
    to the model raises is raised by the message, which has no handler. *)
Theorem prompts_carry_base_message
    (llm : string -> result string) (base_message : string) :
  mentions base_message (CVForm.wait_confirm_prompt base_message) = true
  /\ mentions base_message (CVForm.incomplete_prompt base_message) = true
  /\ CVForm.message_wait_confirm llm base_message
     = match llm (CVForm.wait_confirm_prompt base_message) with
       | inl e => raise e
       | inr reply => ret {[ "output" := VStr reply ]}
       end
  /\ CVForm.message_incomplete llm base_message
     = match llm (CVForm.incomplete_prompt base_message) with
       | inl e => raise e
       | inr reply => ret {[ "output" := VStr reply ]}
       end
  /\ CVForm.message_closed llm
     = match llm CVForm.closed_prompt with
       | inl e => raise e
       | inr reply => ret {[ "output" := VStr reply ]}
       end.
Proof.
  split; [|split; [|split; [|split]]].
  - unfold CVForm.wait_confirm_prompt.
    rewrite <- (append_assoc _ CVForm.nl). apply mentions_inside.
  - unfold CVForm.incomplete_prompt.
    rewrite <- (append_assoc _ CVForm.nl). apply mentions_inside.
  - unfold CVForm.message_wait_confirm, bind.
    by destruct (llm (CVForm.wait_confirm_prompt base_message)).
  - unfold CVForm.message_incomplete, bind.
    by destruct (llm (CVForm.incomplete_prompt base_message)).
  - unfold CVForm.message_closed, bind.
    by destruct (llm CVForm.closed_prompt).
Qed.
